(** * react-input-buffer: the event-rate-reduction pipeline

    A shallow embedding of the four leaf components of the pipeline

      - [SamplingBuffer]       (src/buffer/SamplingBuffer.ts)
      - [PollingRateDetector]  (src/detection/PollingRateDetector.ts, the
                               second file of unnamed/part_001)
      - [MetricsCollector]     (src/metrics/MetricsCollector.ts)
      - [YieldScheduler]       (src/scheduler/YieldScheduler.ts)

    Every class becomes a record of its private fields; every method becomes
    a function from the state before the call to the state after it (and the
    returned value, when there is one).  What the host environment supplies
    ([performance.now()], [requestAnimationFrame], [window.scheduler]) is an
    explicit argument or an explicit part of the state. *)

From Stdlib Require Import String.
From Stdlib Require Import ZArith List Bool Lia.
From Stdlib Require Import QArith Qround.
From Stdlib Require Import Floats.SpecFloat.
Import ListNotations.
Local Open Scope Z_scope.

(* ================================================================== *)
(** * JavaScript numbers

    A JavaScript [number] is an IEEE-754 binary64 value.  The operations are
    the ones of [SpecFloat] at precision 53 and maximal exponent 1024
    (round to nearest, ties to even). *)

Module JS.

Definition number : Type := spec_float.

Definition prec : Z := 53.
Definition emax : Z := 1024.

Definition add : number -> number -> number := SFadd prec emax.
Definition sub : number -> number -> number := SFsub prec emax.
Definition mul : number -> number -> number := SFmul prec emax.
Definition div : number -> number -> number := SFdiv prec emax.

(** [x < y], [x > y] and [x === y] on numbers; all are false on NaN. *)
Definition ltb (x y : number) : bool := SFltb x y.
Definition gtb (x y : number) : bool := SFltb y x.
Definition eqb (x y : number) : bool := SFeqb x y.

(** The number [m * 2^e], rounded to binary64 when it is not
    representable; [ofZ n] is the integer literal [n]. *)
Definition dyadic (m e : Z) : number := binary_normalize prec emax m e false.
Definition ofZ (n : Z) : number := dyadic n 0.

Definition zero : number := S754_zero false.
Definition NaN : number := S754_nan.

(** Being the very same number ([Object.is]). *)
Definition sameNumber (x y : number) : bool :=
  match x, y with
  | S754_zero s1, S754_zero s2 => Bool.eqb s1 s2
  | S754_infinity s1, S754_infinity s2 => Bool.eqb s1 s2
  | S754_nan, S754_nan => true
  | S754_finite s1 m1 e1, S754_finite s2 m2 e2 =>
      Bool.eqb s1 s2 && Pos.eqb m1 m2 && Z.eqb e1 e2
  | _, _ => false
  end.

(** [undefined] is the value of a property an object does not have;
    used as an operand of [+] it converts to [NaN]. *)
Definition ToNumber (v : option number) : number :=
  match v with
  | Some x => x
  | None => NaN
  end.

(** [Math.round]: the integer nearest to [x], ties towards +infinity;
    NaN, the infinities and both zeros are returned unchanged, and a
    negative [x >= -0.5] gives [-0].  For a finite [x = +/- m * 2^e] with
    [e < 0] the result is [floor (x + 1/2)], computed on integers as
    [(+/- 2m + 2^-e) / 2^(1-e)]; for [e >= 0], [x] is an integer. *)
Definition Math_round (x : number) : number :=
  match x with
  | S754_finite s m e =>
      if 0 <=? e then x
      else
        let n := (2 * cond_Zopp s (Zpos m) + 2 ^ (- e)) / 2 ^ (1 - e) in
        binary_normalize prec emax n 0 s
  | _ => x
  end.

(** [Number.isFinite]: neither NaN nor an infinity. *)
Definition isFinite (x : number) : bool :=
  match x with
  | S754_zero _ => true
  | S754_finite _ _ _ => true
  | _ => false
  end.

Definition Infinity : number := S754_infinity false.

(** A finite number above 0. *)
Definition positiveFinite (x : number) : bool :=
  match x with
  | S754_finite false _ _ => true
  | _ => false
  end.

End JS.

(* ================================================================== *)
(** * SamplingBuffer *)

Module SamplingBuffer.

Import JS.

(** src/types.ts, [AccumulatedDeltas]. *)
Record AccumulatedDeltas : Type := mkDeltas {
  deltaX : number;
  deltaY : number;
  deltaZ : number
}.

(** A DOM event, as far as the buffer looks at it: its [type] and the
    three delta properties, which a [WheelEvent] has and a plain [Event]
    has not ([None] is [undefined]).  [ref] stands for the identity of
    the object, so that two events with the same contents remain
    distinguishable. *)
Record Event : Type := mkEvent {
  ref : nat;
  type : string;
  ev_deltaX : option number;
  ev_deltaY : option number;
  ev_deltaZ : option number
}.

(** The private fields of the class.  [flushCallback] is the consumer's
    function; its calls are recorded in the world below. *)
Record SamplingBuffer : Type := mkBuffer {
  latestEvent : option Event;
  accumulatedDeltas : AccumulatedDeltas;
  rafId : option nat;
  shouldAccumulateDeltas : bool;
  isActive : bool
}.

(** The buffer together with the part of the host it talks to:
    - [rafNext]: the handle the next [requestAnimationFrame] returns;
    - [rafQueue]: the handles of the animation-frame callbacks that are
      requested and neither run nor cancelled; the only callback this
      class registers is [() => this.flush()];
    - [delivered]: the calls of [flushCallback] so far, oldest first,
      each with its two arguments ([None] is [undefined]). *)
Record World : Type := mkWorld {
  buf : SamplingBuffer;
  rafNext : nat;
  rafQueue : list nat;
  delivered : list (Event * option AccumulatedDeltas)
}.

Definition zeroDeltas : AccumulatedDeltas := mkDeltas zero zero zero.

(** [constructor(onFlush, accumulateDeltas = true)]. *)
Definition new (accumulateDeltas : bool) : World :=
  mkWorld (mkBuffer None zeroDeltas None accumulateDeltas true) 1%nat [] [].

(** [isScrollEvent]. *)
Definition isScrollEvent (event : Event) : bool :=
  String.eqb (type event) "wheel" || String.eqb (type event) "scroll".

(** The three [+=] of [buffer]. *)
Definition accumulate (acc : AccumulatedDeltas) (event : Event)
  : AccumulatedDeltas :=
  mkDeltas (add (deltaX acc) (ToNumber (ev_deltaX event)))
           (add (deltaY acc) (ToNumber (ev_deltaY event)))
           (add (deltaZ acc) (ToNumber (ev_deltaZ event))).

(** [buffer(event)]. *)
Definition buffer (event : Event) (w : World) : World :=
  let b := buf w in
  if negb (isActive b) then w
  else
    let acc :=
      if shouldAccumulateDeltas b && isScrollEvent event
      then accumulate (accumulatedDeltas b) event
      else accumulatedDeltas b in
    match rafId b with
    | None =>
        mkWorld
          (mkBuffer (Some event) acc (Some (rafNext w))
                    (shouldAccumulateDeltas b) (isActive b))
          (S (rafNext w)) (rafQueue w ++ [rafNext w]) (delivered w)
    | Some id =>
        mkWorld
          (mkBuffer (Some event) acc (Some id)
                    (shouldAccumulateDeltas b) (isActive b))
          (rafNext w) (rafQueue w) (delivered w)
    end.

(** [cancelAnimationFrame(id)]. *)
Definition cancelAnimationFrame (id : nat) (queue : list nat) : list nat :=
  filter (fun h => negb (Nat.eqb h id)) queue.

(** [destroy()]. *)
Definition destroy (w : World) : World :=
  let b := buf w in
  let queue :=
    match rafId b with
    | Some id => cancelAnimationFrame id (rafQueue w)
    | None => rafQueue w
    end in
  mkWorld (mkBuffer None zeroDeltas None (shouldAccumulateDeltas b) false)
          (rafNext w) queue (delivered w).

(** [flush()]. *)
Definition flush (w : World) : World :=
  let b := buf w in
  match latestEvent b with
  | Some event =>
      let deltas :=
        if shouldAccumulateDeltas b && isScrollEvent event
        then Some (accumulatedDeltas b)
        else None in
      mkWorld
        (mkBuffer None zeroDeltas None
                  (shouldAccumulateDeltas b) (isActive b))
        (rafNext w) (rafQueue w) (delivered w ++ [(event, deltas)])
  | None =>
      mkWorld
        (mkBuffer None (accumulatedDeltas b) None
                  (shouldAccumulateDeltas b) (isActive b))
        (rafNext w) (rafQueue w) (delivered w)
  end.

(** One display refresh: the host takes the callbacks requested so far
    off the queue and runs them in order; each of them is [flush]. *)
Definition animationFrame (w : World) : World :=
  fold_left (fun w' _ => flush w') (rafQueue w)
            (mkWorld (buf w) (rafNext w) [] (delivered w)).

(** What can happen to a buffer. *)
Inductive Op : Type :=
| OpBuffer (event : Event)
| OpDestroy
| OpFrame.

Definition step (w : World) (o : Op) : World :=
  match o with
  | OpBuffer event => buffer event w
  | OpDestroy => destroy w
  | OpFrame => animationFrame w
  end.

Definition run (ops : list Op) (w : World) : World := fold_left step ops w.

(** [bufferAll es w]: the events [es] submitted one after the other,
    with no refresh in between. *)
Definition bufferAll (es : list Event) (w : World) : World :=
  fold_left (fun w' e => buffer e w') es w.

(** The worlds a constructed buffer can be in. *)
Inductive Reachable : World -> Prop :=
| reach_new : forall accumulateDeltas, Reachable (new accumulateDeltas)
| reach_step : forall w o, Reachable w -> Reachable (step w o).

(** The sum of one delta component over a sequence of events: the
    number [0 + d1 + ... + dk], added up from the left. *)
Definition total (component : Event -> option number) (es : list Event)
  : number :=
  fold_left (fun s e => add s (ToNumber (component e))) es zero.

(** The component-wise sum of the deltas of a sequence of events. *)
Definition sumDeltas (es : list Event) : AccumulatedDeltas :=
  mkDeltas (total ev_deltaX es) (total ev_deltaY es) (total ev_deltaZ es).

(** The class invariant.  While a flush is scheduled its handle is the
    only one in the queue, an event is pending and the buffer is active;
    while none is scheduled the queue is empty, nothing is pending and
    the accumulator is zero. *)
Definition Inv (w : World) : Prop :=
  match rafId (buf w) with
  | Some id =>
      rafQueue w = [id] /\ latestEvent (buf w) <> None
      /\ isActive (buf w) = true
  | None =>
      rafQueue w = [] /\ latestEvent (buf w) = None
      /\ accumulatedDeltas (buf w) = zeroDeltas
  end.

(** What [buffer] does to the accumulator. *)
Definition accumulateIf (enabled : bool) (acc : AccumulatedDeltas)
  (event : Event) : AccumulatedDeltas :=
  if enabled && isScrollEvent event then accumulate acc event else acc.

(** A destroyed buffer with nothing scheduled. *)
Definition Dead (w : World) : Prop :=
  isActive (buf w) = false /\ latestEvent (buf w) = None.

(** Sample events, as in tests/SamplingBuffer.test.ts. *)
Definition wheelEvent1 : Event :=
  mkEvent 1 "wheel" (Some (ofZ 10)) (Some (ofZ 20)) (Some zero).
Definition wheelEvent2 : Event :=
  mkEvent 2 "wheel" (Some (ofZ 5)) (Some (ofZ 15)) (Some zero).
Definition moveEvent1 : Event := mkEvent 3 "pointermove" None None None.
Definition moveEvent2 : Event := mkEvent 4 "pointermove" None None None.

(** Counting the operations of a run. *)
Definition isFrame (o : Op) : bool :=
  match o with
  | OpFrame => true
  | _ => false
  end.

Definition isBufferCall (o : Op) : bool :=
  match o with
  | OpBuffer _ => true
  | _ => false
  end.

Definition countFrames (ops : list Op) : nat := length (filter isFrame ops).

Definition countBufferCalls (ops : list Op) : nat :=
  length (filter isBufferCall ops).

(** 1 while an event is pending, 0 otherwise. *)
Definition pendingCount (w : World) : nat :=
  match latestEvent (buf w) with
  | Some _ => 1
  | None => 0
  end.

(** An event that has none of the three delta properties, such as the
    plain [Event] the browser fires for 'scroll'. *)
Definition lacksDeltas (event : Event) : bool :=
  match ev_deltaX event, ev_deltaY event, ev_deltaZ event with
  | None, None, None => true
  | _, _, _ => false
  end.

End SamplingBuffer.

(* ================================================================== *)
(** * PollingRateDetector *)

(** src/types.ts, [PollingRate]. *)
Inductive PollingRate : Type :=
| standard
| high
| unknown.

Module PollingRateDetector.

Import JS.

Definition SAMPLE_SIZE : nat := 10.
Definition HIGH_POLLING_THRESHOLD : number := ofZ 1.
Definition HIGH_POLLING_COUNT_THRESHOLD : nat := 5.

(** The private fields; [cachedPollingRate = None] is [null]. *)
Record PollingRateDetector : Type := mkDetector {
  eventTimestamps : list number;
  cachedPollingRate : option PollingRate;
  detectedHz : number
}.

Definition new : PollingRateDetector := mkDetector [] None zero.

(** [calculateDeltas]: [ts[i] - ts[i-1]] for [i = 1 .. length-1]. *)
Fixpoint calculateDeltas (ts : list number) : list number :=
  match ts with
  | [] => []
  | prev :: rest =>
      match rest with
      | [] => []
      | cur :: _ => sub cur prev :: calculateDeltas rest
      end
  end.

(** [deltas.reduce((sum, d) => sum + d, 0)]. *)
Definition sum (deltas : list number) : number := fold_left add deltas zero.

(** A length as a number. *)
Definition lengthOf {A : Type} (l : list A) : number :=
  ofZ (Z.of_nat (length l)).

Definition avgDelta (deltas : list number) : number :=
  div (sum deltas) (lengthOf deltas).

(** [estimateHz]. *)
Definition estimateHz (deltas : list number) : number :=
  match deltas with
  | [] => zero
  | _ =>
      if gtb (avgDelta deltas) zero
      then Math_round (div (ofZ 1000) (avgDelta deltas))
      else zero
  end.

(** [deltas.filter((d) => d < HIGH_POLLING_THRESHOLD).length]. *)
Definition highPollingCount (deltas : list number) : nat :=
  length (filter (fun d => ltb d HIGH_POLLING_THRESHOLD) deltas).

(** [detectPollingRate(event)]; [now] is what [performance.now()]
    returns during the call.  The event itself is not looked at. *)
Definition detectPollingRate (now : number) (d : PollingRateDetector)
  : PollingRate * PollingRateDetector :=
  match cachedPollingRate d with
  | Some cached => (cached, d)
  | None =>
      let pushed := eventTimestamps d ++ [now] in
      let ts :=
        if (SAMPLE_SIZE <? length pushed)%nat then tl pushed else pushed in
      if (length ts <? SAMPLE_SIZE)%nat
      then (unknown, mkDetector ts None (detectedHz d))
      else
        let deltas := calculateDeltas ts in
        if (HIGH_POLLING_COUNT_THRESHOLD <=? highPollingCount deltas)%nat
        then (high, mkDetector ts (Some high) (estimateHz deltas))
        else (standard, mkDetector ts (Some standard) (estimateHz deltas))
  end.

(** [getDetectedHz()]. *)
Definition getDetectedHz (d : PollingRateDetector) : number := detectedHz d.

(** [reset()]. *)
Definition reset (d : PollingRateDetector) : PollingRateDetector :=
  mkDetector [] None zero.

(** The detector called once per timestamp of [nows]: the values the
    calls return, in order, and the detector afterwards. *)
Fixpoint detectAll (nows : list number) (d : PollingRateDetector)
  : list PollingRate * PollingRateDetector :=
  match nows with
  | [] => ([], d)
  | now :: rest =>
      let (r, d1) := detectPollingRate now d in
      let (rs, d2) := detectAll rest d1 in
      (r :: rs, d2)
  end.

(** [n] readings of a clock that starts at [from] and is advanced by
    [step] before each reading ([mockTime += step] in
    tests/PollingRateDetector.test.ts). *)
Fixpoint spaced (step : number) (from : number) (n : nat) : list number :=
  match n with
  | O => []
  | S k => add from step :: spaced step (add from step) k
  end.

(** 0.125 ms apart (8000 Hz) and 8 ms apart (125 Hz). *)
Definition timestamps8000Hz : list number := spaced (dyadic 1 (-3)) zero 10.
Definition timestamps125Hz : list number := spaced (ofZ 8) zero 10.

(** The classification rule in the words of the specification, for a
    window of ten samples, written with the operations on numbers alone.
    [sampleDelta ts i] is the [i]-th consecutive-sample delta: sample
    [i+1] minus sample [i]. *)
Definition sampleDelta (ts : list number) (i : nat) : number :=
  sub (nth (S i) ts NaN) (nth i ts NaN).

(** How many of the 9 deltas are below the threshold of 1 millisecond. *)
Definition subThresholdCount (ts : list number) : nat :=
  length (filter (fun i => ltb (sampleDelta ts i) (ofZ 1)) (seq 0 9)).

(** The average delta: the 9 deltas added up, first to last, starting
    from 0, and divided by 9. *)
Definition averageDelta (ts : list number) : number :=
  div (fold_left (fun total i => add total (sampleDelta ts i)) (seq 0 9) zero)
      (ofZ 9).

(** Ten unevenly spaced samples: five deltas of 0.5 ms, then 7.5, 10, 10
    and 10 ms (sum 40); and ten with four deltas of 0.5 ms, then 8, 10,
    10, 10 and 10 ms (sum 50). *)
Definition fiveFastDeltas : list number :=
  [zero; dyadic 1 (-1); ofZ 1; dyadic 3 (-1); ofZ 2; dyadic 5 (-1);
   ofZ 10; ofZ 20; ofZ 30; ofZ 40].

Definition fourFastDeltas : list number :=
  [zero; dyadic 1 (-1); ofZ 1; dyadic 3 (-1); ofZ 2;
   ofZ 10; ofZ 20; ofZ 30; ofZ 40; ofZ 50].

(** The public methods that change a detector. *)
Inductive Op : Type :=
| OpDetect (now : number)
| OpReset.

Definition step (d : PollingRateDetector) (o : Op) : PollingRateDetector :=
  match o with
  | OpDetect now => snd (detectPollingRate now d)
  | OpReset => reset d
  end.

Definition run (ops : list Op) (d : PollingRateDetector)
  : PollingRateDetector :=
  fold_left step ops d.

(** The classification of a full window. *)
Definition classify (ts : list number) : PollingRate :=
  if (HIGH_POLLING_COUNT_THRESHOLD <=? highPollingCount (calculateDeltas ts))%nat
  then high else standard.

(** The class invariant: the window never outgrows [SAMPLE_SIZE]; nothing
    is cached and the estimate is 0 while it is shorter; once it is full
    the cache holds the classification of exactly the stored window and
    the estimate is the one of that window. *)
Definition Consistent (d : PollingRateDetector) : Prop :=
  match cachedPollingRate d with
  | None =>
      (length (eventTimestamps d) < SAMPLE_SIZE)%nat /\ detectedHz d = zero
  | Some rate =>
      length (eventTimestamps d) = SAMPLE_SIZE
      /\ rate = classify (eventTimestamps d)
      /\ detectedHz d = estimateHz (calculateDeltas (eventTimestamps d))
  end.

End PollingRateDetector.

(* ================================================================== *)
(** * MetricsCollector *)

Module MetricsCollector.

Import JS.

(** src/types.ts, [Metrics].  The two counters start at 0 and are only
    ever incremented by 1, so they hold natural numbers, which binary64
    represents exactly below 2^53; they are kept as integers and
    converted with [ofZ] where the code divides. *)
Record Metrics : Type := mkMetrics {
  pollingRate : PollingRate;
  detectedHz : number;
  rawEventCount : Z;
  flushedEventCount : Z;
  reductionPercentage : number;
  currentFPS : number;
  averageProcessingTime : number;
  timestamp : number
}.

Record MetricsCollector : Type := mkCollector {
  metrics : Metrics;
  frameTimestamps : list number;
  eventProcessingTimes : list number
}.

Definition MAX_FRAME_SAMPLES : nat := 60.
Definition MAX_PROCESSING_SAMPLES : nat := 100.

Definition initialMetrics (now : number) : Metrics :=
  mkMetrics unknown zero 0 0 zero zero zero now.

(** [constructor()]; [now] is [performance.now()]. *)
Definition new (now : number) : MetricsCollector :=
  mkCollector (initialMetrics now) [] [].

(** [updateReductionPercentage] as a function of the two counters. *)
Definition reduction (raw flushed : Z) : number :=
  if raw =? 0 then zero
  else
    let filtered := raw - flushed in
    Math_round (mul (div (ofZ filtered) (ofZ raw)) (ofZ 100)).

Definition updateReductionPercentage (m : Metrics) : Metrics :=
  mkMetrics (pollingRate m) (detectedHz m)
            (rawEventCount m) (flushedEventCount m)
            (reduction (rawEventCount m) (flushedEventCount m))
            (currentFPS m) (averageProcessingTime m) (timestamp m).

(** [recordRawEvent()]. *)
Definition recordRawEvent (c : MetricsCollector) : MetricsCollector :=
  let m := metrics c in
  mkCollector
    (updateReductionPercentage
       (mkMetrics (pollingRate m) (detectedHz m)
                  (rawEventCount m + 1) (flushedEventCount m)
                  (reductionPercentage m)
                  (currentFPS m) (averageProcessingTime m) (timestamp m)))
    (frameTimestamps c) (eventProcessingTimes c).

(** [recordFlushedEvent()]. *)
Definition recordFlushedEvent (c : MetricsCollector) : MetricsCollector :=
  let m := metrics c in
  mkCollector
    (updateReductionPercentage
       (mkMetrics (pollingRate m) (detectedHz m)
                  (rawEventCount m) (flushedEventCount m + 1)
                  (reductionPercentage m)
                  (currentFPS m) (averageProcessingTime m) (timestamp m)))
    (frameTimestamps c) (eventProcessingTimes c).

(** [push] followed by a [shift] when the array is longer than [max]. *)
Definition pushBounded (max : nat) (l : list number) (x : number)
  : list number :=
  let pushed := l ++ [x] in
  if (max <? length pushed)%nat then tl pushed else pushed.

(** [updateAverageProcessingTime]. *)
Definition average (times : list number) : number :=
  match times with
  | [] => zero
  | _ => div (fold_left add times zero) (ofZ (Z.of_nat (length times)))
  end.

(** [recordProcessingTime(timeMs)]. *)
Definition recordProcessingTime (timeMs : number) (c : MetricsCollector)
  : MetricsCollector :=
  let m := metrics c in
  let times := pushBounded MAX_PROCESSING_SAMPLES
                           (eventProcessingTimes c) timeMs in
  mkCollector
    (mkMetrics (pollingRate m) (detectedHz m)
               (rawEventCount m) (flushedEventCount m)
               (reductionPercentage m)
               (currentFPS m) (average times) (timestamp m))
    (frameTimestamps c) times.

(** [updateFPS()]; [now] is [performance.now()]. *)
Definition updateFPS (now : number) (c : MetricsCollector)
  : MetricsCollector :=
  let m := metrics c in
  let frames := pushBounded MAX_FRAME_SAMPLES (frameTimestamps c) now in
  let fps :=
    if (2 <=? length frames)%nat
    then
      let duration := sub now (hd NaN frames) in
      Math_round
        (mul (div (ofZ (Z.of_nat (length frames) - 1)) duration)
             (ofZ 1000))
    else currentFPS m in
  mkCollector
    (mkMetrics (pollingRate m) (detectedHz m)
               (rawEventCount m) (flushedEventCount m)
               (reductionPercentage m)
               fps (averageProcessingTime m) (timestamp m))
    frames (eventProcessingTimes c).

(** [updatePollingRate(pollingRate, detectedHz)]. *)
Definition updatePollingRate (rate : PollingRate) (hz : number)
  (c : MetricsCollector) : MetricsCollector :=
  let m := metrics c in
  mkCollector
    (mkMetrics rate hz
               (rawEventCount m) (flushedEventCount m)
               (reductionPercentage m)
               (currentFPS m) (averageProcessingTime m) (timestamp m))
    (frameTimestamps c) (eventProcessingTimes c).

(** [getMetrics()]: a copy of the metrics with a fresh [timestamp];
    the collector is not changed. *)
Definition getMetrics (now : number) (c : MetricsCollector) : Metrics :=
  let m := metrics c in
  mkMetrics (pollingRate m) (detectedHz m)
            (rawEventCount m) (flushedEventCount m)
            (reductionPercentage m)
            (currentFPS m) (averageProcessingTime m) now.

(** [reset()]. *)
Definition reset (now : number) (c : MetricsCollector) : MetricsCollector :=
  mkCollector (initialMetrics now) [] [].

(** The public methods, with the clock readings they make. *)
Inductive Op : Type :=
| OpRecordRawEvent
| OpRecordFlushedEvent
| OpRecordProcessingTime (timeMs : number)
| OpUpdateFPS (now : number)
| OpUpdatePollingRate (rate : PollingRate) (hz : number)
| OpGetMetrics (now : number)
| OpReset (now : number).

Definition step (c : MetricsCollector) (o : Op) : MetricsCollector :=
  match o with
  | OpRecordRawEvent => recordRawEvent c
  | OpRecordFlushedEvent => recordFlushedEvent c
  | OpRecordProcessingTime t => recordProcessingTime t c
  | OpUpdateFPS now => updateFPS now c
  | OpUpdatePollingRate rate hz => updatePollingRate rate hz c
  | OpGetMetrics _ => c
  | OpReset now => reset now c
  end.

Definition run (ops : list Op) (c : MetricsCollector) : MetricsCollector :=
  fold_left step ops c.

(** The formula of the specification, in exact arithmetic:
    round (100 * (raw - flushed) / raw), and 0 when raw is 0.  The
    rounding is to the nearest integer, a tie going up as in
    [Math.round]. *)
Definition exactReduction (raw flushed : Z) : Z :=
  if raw =? 0 then 0
  else Qfloor (100 * inject_Z (raw - flushed) / inject_Z raw + (1 # 2))%Q.

(** The same formula evaluated as the JavaScript expression
    [Math.round(100 * (raw - flushed) / raw)], every operation rounded to
    binary64: the product first, then the quotient. *)
Definition writtenReduction (raw flushed : Z) : number :=
  if raw =? 0 then zero
  else Math_round (div (mul (ofZ 100) (ofZ (raw - flushed))) (ofZ raw)).

(** Call discipline under which the flushed count cannot overtake the raw
    count: [owed] is the number of raw events recorded since the last
    reset and not yet matched by a flushed one; recording a flushed event
    needs one. *)
Fixpoint paired (owed : nat) (ops : list Op) : bool :=
  match ops with
  | [] => true
  | OpRecordRawEvent :: rest => paired (S owed) rest
  | OpRecordFlushedEvent :: rest =>
      match owed with
      | O => false
      | S k => paired k rest
      end
  | OpReset _ :: rest => paired O rest
  | _ :: rest => paired owed rest
  end.

(** The class invariant: [reductionPercentage] is in step with the two
    counters. *)
Definition InStep (c : MetricsCollector) : Prop :=
  reductionPercentage (metrics c)
  = reduction (rawEventCount (metrics c)) (flushedEventCount (metrics c)).

(** Whether the code and the exact formula agree on all counts with
    [0 <= flushed <= raw] and [1 <= raw <= bound]. *)
Definition agreeUpTo (bound : nat) : bool :=
  forallb
    (fun raw =>
       forallb
         (fun flushed =>
            sameNumber (reduction (Z.of_nat raw) (Z.of_nat flushed))
                       (ofZ (exactReduction (Z.of_nat raw)
                                            (Z.of_nat flushed))))
         (seq 0 (S raw)))
    (seq 1 bound).

(** 40 raw events of which 17 were flushed. *)
Definition fortyRawSeventeenFlushed : list Op :=
  repeat OpRecordRawEvent 40 ++ repeat OpRecordFlushedEvent 17.

(** Kinds of operations. *)
Definition isRecordRaw (o : Op) : bool :=
  match o with
  | OpRecordRawEvent => true
  | _ => false
  end.

Definition isRecordFlushed (o : Op) : bool :=
  match o with
  | OpRecordFlushedEvent => true
  | _ => false
  end.

Definition isReset (o : Op) : bool :=
  match o with
  | OpReset _ => true
  | _ => false
  end.

(** The operations after the last [reset] of a run (all of them when the
    run has no [reset]). *)
Fixpoint sinceReset (ops : list Op) : list Op :=
  match ops with
  | [] => []
  | o :: rest =>
      if existsb isReset rest then sinceReset rest
      else if isReset o then rest
      else o :: rest
  end.

(** The last [n] elements of a list. *)
Definition lastn {A : Type} (n : nat) (l : list A) : list A :=
  skipn (length l - n) l.

(** [recordProcessingTime] called with each of [times] in turn. *)
Definition recordProcessingTimes (times : list number) (c : MetricsCollector)
  : MetricsCollector :=
  fold_left (fun c' t => recordProcessingTime t c') times c.

End MetricsCollector.

(* ================================================================== *)
(** * YieldScheduler *)

(** src/types.ts, [Priority]. *)
Inductive Priority : Type :=
| user_visible
| background.

Module YieldScheduler.

(** What calling the host's [scheduler.yield] does: its promise
    resolves, the call throws, or its promise rejects. *)
Inductive YieldOutcome : Type :=
| Resolves
| Throws
| Rejects.

(** The [yield] property of [window.scheduler]. *)
Inductive YieldProperty : Type :=
| yield_falsy                          (* absent, [undefined], [null]... *)
| yield_not_callable                   (* truthy, [typeof] not 'function' *)
| yield_function (outcome : YieldOutcome).

(** The [scheduler] property of [window]. *)
Inductive SchedulerProperty : Type :=
| scheduler_missing                    (* ['scheduler' in window] is false *)
| scheduler_falsy                      (* present, [undefined] or [null] *)
| scheduler_object (yield : YieldProperty).

(** The host: [None] when there is no [window] at all. *)
Definition Host : Type := option SchedulerProperty.

(** What the scheduler does to the outside, in order. *)
Inductive Effect : Type :=
| NativeYield (args : list Priority)   (* [scheduler.yield(...args)] *)
| SetTimeout (delay : Z)               (* [setTimeout(resolve, delay)] *)
| Callback.                            (* [callback()] *)

Inductive Error : Type :=
| ReferenceError
| TypeError
| YieldError.

(** How a piece of code ends: normally with a value, or by throwing
    (for an [async] function: with a rejected promise, which [await]
    throws again). *)
Inductive Completion (A : Type) : Type :=
| Normal (a : A)
| Thrown (e : Error).
Arguments Normal {A} a.
Arguments Thrown {A} e.

(** Code that performs effects and completes. *)
Definition M (A : Type) : Type := list Effect * Completion A.

Definition ret {A : Type} (a : A) : M A := ([], Normal a).

Definition bind {A B : Type} (m : M A) (k : A -> M B) : M B :=
  match m with
  | (t1, Normal a) => let (t2, c) := k a in (t1 ++ t2, c)
  | (t1, Thrown e) => (t1, Thrown e)
  end.

Definition emit (e : Effect) : M unit := ([e], Normal tt).

Definition throw {A : Type} (e : Error) : M A := ([], Thrown e).

(** [try { body } catch (error) { handler }]. *)
Definition try_catch {A : Type} (body : M A) (handler : Error -> M A)
  : M A :=
  match body with
  | (t1, Normal a) => (t1, Normal a)
  | (t1, Thrown e) => let (t2, c) := handler e in (t1 ++ t2, c)
  end.

Notation "m1 ;; m2" := (bind m1 (fun _ => m2))
  (at level 61, right associativity).

(** [isSchedulerSupported()], conjunct by conjunct. *)
Definition windowDefined (h : Host) : bool :=
  match h with
  | Some _ => true
  | None => false
  end.

Definition schedulerInWindow (h : Host) : bool :=
  match h with
  | Some scheduler_missing => false
  | Some _ => true
  | None => false
  end.

Definition typeofYieldIsFunction (h : Host) : bool :=
  match h with
  | Some (scheduler_object (yield_function _)) => true
  | _ => false
  end.

Definition isSchedulerSupported (h : Host) : bool :=
  windowDefined h && schedulerInWindow h && typeofYieldIsFunction h.

(** [fallbackYield()]. *)
Definition fallbackYield : M unit := emit (SetTimeout 0).

(** [await scheduler.yield()] on a truthy [yield]. *)
Definition awaitYield (y : YieldProperty) : M unit :=
  match y with
  | yield_falsy => ret tt
  | yield_not_callable => throw TypeError
  | yield_function outcome =>
      emit (NativeYield []) ;;
      match outcome with
      | Resolves => ret tt
      | Throws => throw YieldError
      | Rejects => throw YieldError
      end
  end.

(** [yieldToScheduler(priority)]. *)
Definition yieldToScheduler (h : Host) (priority : Priority) : M unit :=
  try_catch
    match h with
    | None => throw ReferenceError
    | Some scheduler_missing => ret tt
    | Some scheduler_falsy => ret tt
    | Some (scheduler_object y) => awaitYield y
    end
    (fun _ => fallbackYield).

(** [processWithYield(callback, priority)]. *)
Definition processWithYield (h : Host) (priority : Priority) : M unit :=
  (if isSchedulerSupported h
   then yieldToScheduler h priority
   else fallbackYield) ;;
  emit Callback.

(** The native primitive is there and calling it fails. *)
Definition nativeFails (h : Host) : bool :=
  match h with
  | Some (scheduler_object (yield_function Throws)) => true
  | Some (scheduler_object (yield_function Rejects)) => true
  | _ => false
  end.

Definition isCallback (e : Effect) : bool :=
  match e with
  | Callback => true
  | _ => false
  end.

Definition isTimerYield (e : Effect) : bool :=
  match e with
  | SetTimeout 0 => true
  | _ => false
  end.

(** The native primitive called with exactly the hint [p]. *)
Definition isNativeYieldWith (p : Priority) (e : Effect) : bool :=
  match e with
  | NativeYield [user_visible] =>
      match p with user_visible => true | background => false end
  | NativeYield [background] =>
      match p with background => true | user_visible => false end
  | _ => false
  end.

(** Any yield to the host, native or by timer. *)
Definition isYield (e : Effect) : bool :=
  match e with
  | NativeYield _ => true
  | SetTimeout _ => true
  | Callback => false
  end.

Definition isNativeCall (e : Effect) : bool :=
  match e with
  | NativeYield _ => true
  | _ => false
  end.

End YieldScheduler.

(* ================================================================== *)
(** * EventInterceptor (src/interceptor/EventInterceptor.ts) *)

Module EventInterceptor.

(** The closure [attach] creates for one event type; a number stands for
    its identity, every closure being a new object. *)
Definition Listener : Type := nat.

(** One capture-phase entry of the window's listener list: the event
    type and the callback. *)
Definition Registration : Type := (string * Listener)%type.

(** The interceptor and the part of the host it talks to:
    - [activeListeners]: the [Map] from event type to listener, in
      insertion order;
    - [windowListeners]: the capture-phase listeners registered on
      [window], this interceptor's and everybody else's, in order of
      registration;
    - [nextListener]: the identity of the next closure created. *)
Record World : Type := mkWorld {
  activeListeners : list (string * Listener);
  windowListeners : list Registration;
  nextListener : Listener
}.

Definition sameRegistration (a b : Registration) : bool :=
  String.eqb (fst a) (fst b) && Nat.eqb (snd a) (snd b).

(** [window.addEventListener(type, listener, { capture: true, ... })]:
    the host appends the entry unless the same type and callback are
    registered for the capture phase already. *)
Definition addEventListener (r : Registration) (l : list Registration)
  : list Registration :=
  if existsb (sameRegistration r) l then l else l ++ [r].

(** [window.removeEventListener(type, listener, { capture: true })]. *)
Definition removeEventListener (r : Registration) (l : list Registration)
  : list Registration :=
  filter (fun x => negb (sameRegistration r x)) l.

(** [Map.prototype.set]: the value of a key that is there is replaced
    where it stands, a new key is appended. *)
Definition mapSet (k : string) (v : Listener) (m : list (string * Listener))
  : list (string * Listener) :=
  if existsb (fun e => String.eqb (fst e) k) m
  then map (fun e => if String.eqb (fst e) k then (k, v) else e) m
  else m ++ [(k, v)].

(** The body of the [forEach] of [attach], for one event type. *)
Definition attachOne (w : World) (type : string) : World :=
  let listener := nextListener w in
  mkWorld (mapSet type listener (activeListeners w))
          (addEventListener (type, listener) (windowListeners w))
          (S listener).

(** [attach(eventTypes)]. *)
Definition attach (eventTypes : list string) (w : World) : World :=
  fold_left attachOne eventTypes w.

(** [detach()]. *)
Definition detach (w : World) : World :=
  mkWorld []
          (fold_left (fun l entry => removeEventListener entry l)
                     (activeListeners w) (windowListeners w))
          (nextListener w).

(** [updateEventTypes(eventTypes)]. *)
Definition updateEventTypes (eventTypes : list string) (w : World) : World :=
  attach eventTypes (detach w).

(** [constructor(eventTypes, shouldBuffer, handler)], in a host whose
    window has the listeners [window] and whose next closure is [fresh]. *)
Definition new (eventTypes : list string) (window : list Registration)
  (fresh : Listener) : World :=
  attach eventTypes (mkWorld [] window fresh).

(** The closure [listener] of [attach].  The two callbacks act on a state
    of the caller's; the result says whether [stopImmediatePropagation]
    was called. *)
Definition listener {S : Type} (shouldBufferCallback : S -> bool * S)
  (eventHandler : S -> S) (s : S) : bool * S :=
  let (stop, s1) := shouldBufferCallback s in
  (stop, eventHandler s1).

(** No listener on the window and none in the map has an identity that
    is still to be given out. *)
Definition Fresh (w : World) : Prop :=
  forall r, In r (windowListeners w) \/ In r (activeListeners w) ->
            (snd r < nextListener w)%nat.

(** The entries [attach] registers for [types], the first closure being
    [n]. *)
Fixpoint registrations (types : list string) (n : Listener)
  : list Registration :=
  match types with
  | [] => []
  | t :: rest => (t, n) :: registrations rest (S n)
  end.

(** Those of them that belong to a type which occurs again later in
    [types]. *)
Fixpoint shadowed (types : list string) (n : Listener) : list Registration :=
  match types with
  | [] => []
  | t :: rest =>
      (if existsb (String.eqb t) rest then [(t, n)] else [])
        ++ shadowed rest (S n)
  end.

(** [Map.set] for each of [regs] in turn. *)
Definition setAll (regs : list Registration) (m : list (string * Listener))
  : list (string * Listener) :=
  fold_left (fun m' r => mapSet (fst r) (snd r) m') regs m.

(** Every identity in [l] is below [n]. *)
Definition below (n : Listener) (l : list Registration) : Prop :=
  forall r, In r l -> (snd r < n)%nat.

End EventInterceptor.

(* ================================================================== *)
(** * InputSanitizer (src/components/InputSanitizer.tsx, the first file of
      unnamed/part_001): the effect that wires the pipeline *)

Module InputSanitizer.

Import JS.

(** The refs of the component and what is in flight.  The refs outlive a
    run of the effect: every closure reads [ref.current] when it is
    called, so it acts on the objects that are current then.
    - [detector], [collector]: [detectorRef.current], [metricsRef.current];
    - [world]: [bufferRef.current] with its host; its [delivered] are the
      calls of [handleFlush] so far, those of earlier runs of the effect
      included;
    - [inFlight]: the [startTime] of every [handleFlush] that waits for
      its yield, whichever run of the effect started it. *)
Record Pipeline : Type := mkPipeline {
  detector : PollingRateDetector.PollingRateDetector;
  collector : MetricsCollector.MetricsCollector;
  world : SamplingBuffer.World;
  inFlight : list number
}.

(** The body of the effect, up to the interceptor; [now] is the clock
    reading of the collector's constructor. *)
Definition mount (accumulateDeltas : bool) (now : number) : Pipeline :=
  mkPipeline PollingRateDetector.new (MetricsCollector.new now)
             (SamplingBuffer.new accumulateDeltas) [].

(** [shouldBuffer(event)]; [isPointerEvent] is
    [event instanceof PointerEvent]. *)
Definition shouldBuffer (isPointerEvent : bool) (now : number) (p : Pipeline)
  : bool * Pipeline :=
  let c := MetricsCollector.recordRawEvent (collector p) in
  if isPointerEvent
  then
    let (pollingRate, d) :=
      PollingRateDetector.detectPollingRate now (detector p) in
    let detectedHz := PollingRateDetector.getDetectedHz d in
    (true,
     mkPipeline d (MetricsCollector.updatePollingRate pollingRate detectedHz c)
                (world p) (inFlight p))
  else (true, mkPipeline (detector p) c (world p) (inFlight p)).

(** [handleEvent(event)]. *)
Definition handleEvent (event : SamplingBuffer.Event) (p : Pipeline)
  : Pipeline :=
  mkPipeline (detector p) (collector p)
             (SamplingBuffer.buffer event (world p)) (inFlight p).

(** One call of the interceptor's listener. *)
Definition onEvent (event : SamplingBuffer.Event) (isPointerEvent : bool)
  (now : number) (p : Pipeline) : bool * Pipeline :=
  EventInterceptor.listener (shouldBuffer isPointerEvent now)
                            (handleEvent event) p.

(** One display refresh at clock reading [now]: every delivery of the
    buffer is a call of [handleFlush], which reads [startTime] and
    suspends in [processWithYield]. *)
Definition onFrame (now : number) (p : Pipeline) : Pipeline :=
  let w := SamplingBuffer.animationFrame (world p) in
  let started :=
    (length (SamplingBuffer.delivered w)
     - length (SamplingBuffer.delivered (world p)))%nat in
  mkPipeline (detector p) (collector p) w (inFlight p ++ repeat now started).

(** The [i]-th suspended [handleFlush] resumes: the callback records the
    flushed event and the frame at clock reading [now1], then the
    processing time is taken at clock reading [now2].  Both go to
    [metricsRef.current] as it is at that moment, which after a new run
    of the effect is not the collector [handleFlush] started with. *)
Definition onResume (i : nat) (now1 now2 : number) (p : Pipeline) : Pipeline :=
  match nth_error (inFlight p) i with
  | None => p
  | Some startTime =>
      let c1 := MetricsCollector.recordFlushedEvent (collector p) in
      let c2 := MetricsCollector.updateFPS now1 c1 in
      let processingTime := sub now2 startTime in
      mkPipeline (detector p)
                 (MetricsCollector.recordProcessingTime processingTime c2)
                 (world p)
                 (firstn i (inFlight p) ++ skipn (S i) (inFlight p))
  end.

(** The cleanup of the effect, as far as the pipeline goes:
    [bufferRef.current?.destroy()]. *)
Definition unmount (p : Pipeline) : Pipeline :=
  mkPipeline (detector p) (collector p)
             (SamplingBuffer.destroy (world p)) (inFlight p).

(** A dependency of the effect changes ([sampleRate], [priority],
    [eventTypes], [accumulateDeltas], [debug] or [onMetrics]): the cleanup
    runs and then the body of the effect again.  The old buffer is
    destroyed, so that it delivers nothing any more and its cancelled
    callback is gone from the host's queue; detector, collector and
    buffer are new objects; the host goes on (the handles continue, and
    so does the record of the [handleFlush] calls); the suspended
    [handleFlush] calls stay suspended. *)
Definition rerun (accumulateDeltas : bool) (now : number) (p : Pipeline)
  : Pipeline :=
  let w := SamplingBuffer.destroy (world p) in
  mkPipeline PollingRateDetector.new (MetricsCollector.new now)
             (SamplingBuffer.mkWorld
                (SamplingBuffer.buf (SamplingBuffer.new accumulateDeltas))
                (SamplingBuffer.rafNext w) [] (SamplingBuffer.delivered w))
             (inFlight p).

(** What happens to a mounted pipeline.  A listener may be called at any
    time, also after the cleanup. *)
Inductive Op : Type :=
| OpEvent (event : SamplingBuffer.Event) (isPointerEvent : bool) (now : number)
| OpFrame (now : number)
| OpResume (i : nat) (now1 now2 : number)
| OpUnmount
| OpRerun (accumulateDeltas : bool) (now : number).

Definition step (p : Pipeline) (o : Op) : Pipeline :=
  match o with
  | OpEvent event isPointerEvent now =>
      snd (onEvent event isPointerEvent now p)
  | OpFrame now => onFrame now p
  | OpResume i now1 now2 => onResume i now1 now2 p
  | OpUnmount => unmount p
  | OpRerun accumulateDeltas now => rerun accumulateDeltas now p
  end.

Definition run (ops : list Op) (p : Pipeline) : Pipeline :=
  fold_left step ops p.

Definition isRerun (o : Op) : bool :=
  match o with
  | OpRerun _ _ => true
  | _ => false
  end.

(** The operations after the last new run of the effect (all of them
    when there is none). *)
Fixpoint sinceRerun (ops : list Op) : list Op :=
  match ops with
  | [] => []
  | o :: rest =>
      if existsb isRerun rest then sinceRerun rest
      else if isRerun o then rest
      else o :: rest
  end.

Definition isFrame (o : Op) : bool :=
  match o with
  | OpFrame _ => true
  | _ => false
  end.

Definition isPointerCall (o : Op) : bool :=
  match o with
  | OpEvent _ true _ => true
  | _ => false
  end.

Definition countFrames (ops : list Op) : nat := length (filter isFrame ops).

Definition countPointerEvents (ops : list Op) : nat :=
  length (filter isPointerCall ops).

(** The classification a detector stands for. *)
Definition classification (d : PollingRateDetector.PollingRateDetector)
  : PollingRate :=
  match PollingRateDetector.cachedPollingRate d with
  | Some rate => rate
  | None => unknown
  end.

(** The metrics mirror the detector. *)
Definition Mirrored (p : Pipeline) : Prop :=
  let m := MetricsCollector.metrics (collector p) in
  MetricsCollector.pollingRate m = classification (detector p)
  /\ MetricsCollector.detectedHz m
     = PollingRateDetector.getDetectedHz (detector p)
  /\ PollingRateDetector.Consistent (detector p).

(** The invariant of one run of the effect. *)
Definition Wired (p : Pipeline) : Prop :=
  let m := MetricsCollector.metrics (collector p) in
  let flushes := Z.of_nat (length (SamplingBuffer.delivered (world p))) in
  SamplingBuffer.Inv (world p)
  /\ MetricsCollector.flushedEventCount m
       + Z.of_nat (length (inFlight p)) = flushes
  /\ flushes + Z.of_nat (SamplingBuffer.pendingCount (world p))
     <= MetricsCollector.rawEventCount m
  /\ MetricsCollector.pollingRate m = classification (detector p)
  /\ MetricsCollector.detectedHz m
     = PollingRateDetector.getDetectedHz (detector p)
  /\ PollingRateDetector.Consistent (detector p).

End InputSanitizer.

(* ================================================================== *)
(** * Properties of the SamplingBuffer *)

Section SamplingBufferFacts.

Import JS SamplingBuffer.

Lemma Inv_new : forall accumulateDeltas, Inv (new accumulateDeltas).
Proof. intros a. cbv [Inv new buf rafId]. auto. Qed.

Lemma Inv_buffer : forall e w, Inv w -> Inv (buffer e w).
Proof.
  intros e [[le acc [id|] sh act] nx q del]; unfold Inv, buffer; simpl;
    destruct act; simpl; intros H; try exact H.
  - destruct H as (Hq & _ & _). repeat split; auto. discriminate.
  - destruct H as (Hq & _ & _). subst q. repeat split; auto. discriminate.
Qed.

Lemma cancel_singleton : forall id, cancelAnimationFrame id [id] = [].
Proof.
  intros id. unfold cancelAnimationFrame. simpl.
  rewrite Nat.eqb_refl. reflexivity.
Qed.

Lemma Inv_destroy : forall w, Inv w -> Inv (destroy w).
Proof.
  intros [[le acc [id|] sh act] nx q del]; unfold Inv, destroy; simpl;
    intros (Hq & _ & _); subst q; repeat split; auto.
  apply cancel_singleton.
Qed.

(** Under the invariant a refresh runs [flush] once when a flush is
    scheduled and does nothing otherwise. *)
Lemma animationFrame_scheduled :
  forall w id, Inv w -> rafId (buf w) = Some id ->
    animationFrame w
    = flush (mkWorld (buf w) (rafNext w) [] (delivered w)).
Proof.
  intros w id HI Hid. unfold Inv in HI. rewrite Hid in HI.
  destruct HI as (Hq & _ & _). unfold animationFrame. rewrite Hq.
  reflexivity.
Qed.

Lemma animationFrame_idle :
  forall w, Inv w -> rafId (buf w) = None -> animationFrame w = w.
Proof.
  intros w HI Hid. unfold Inv in HI. rewrite Hid in HI.
  destruct HI as (Hq & _ & _). unfold animationFrame. rewrite Hq.
  destruct w; simpl in *. subst. reflexivity.
Qed.

Lemma Inv_animationFrame : forall w, Inv w -> Inv (animationFrame w).
Proof.
  intros w HI. destruct (rafId (buf w)) as [id|] eqn:Hid.
  - rewrite (animationFrame_scheduled w id HI Hid).
    unfold Inv in HI. rewrite Hid in HI. destruct HI as (_ & Hle & _).
    unfold Inv, flush. simpl.
    destruct (latestEvent (buf w)); simpl; repeat split; auto.
    congruence.
  - rewrite (animationFrame_idle w HI Hid). exact HI.
Qed.

Create HintDb buffer_inv.
#[local] Hint Resolve Inv_new Inv_buffer Inv_destroy Inv_animationFrame
  : buffer_inv.

Lemma Inv_step : forall w o, Inv w -> Inv (step w o).
Proof. intros w [e| |] HI; simpl; auto with buffer_inv. Qed.

#[local] Hint Resolve Inv_step : buffer_inv.

Lemma Reachable_Inv : forall w, Reachable w -> Inv w.
Proof. induction 1; auto with buffer_inv. Qed.

Lemma last_nonempty_default :
  forall (A : Type) (l : list A) (a d d' : A),
    last (a :: l) d = last (a :: l) d'.
Proof.
  induction l as [|b l IH]; intros a d d'; [reflexivity|].
  change (last (b :: l) d = last (b :: l) d'). apply IH.
Qed.

Lemma last_cons_default :
  forall (A : Type) (l : list A) (a d : A), last (a :: l) d = last l a.
Proof.
  intros A [|b l] a d; [reflexivity|].
  change (last (b :: l) d = last (b :: l) a). apply last_nonempty_default.
Qed.

(** One [buffer] on an active buffer, field by field. *)
Lemma buffer_active :
  forall e w, isActive (buf w) = true ->
    let w' := buffer e w in
    isActive (buf w') = true
    /\ shouldAccumulateDeltas (buf w') = shouldAccumulateDeltas (buf w)
    /\ delivered w' = delivered w
    /\ latestEvent (buf w') = Some e
    /\ accumulatedDeltas (buf w')
       = accumulateIf (shouldAccumulateDeltas (buf w))
                      (accumulatedDeltas (buf w)) e.
Proof.
  intros e [[le acc rid sh act] nx q del] Hact. simpl in Hact. subst act.
  unfold buffer, accumulateIf. simpl. destruct rid; simpl; auto.
Qed.

(** A burst of [buffer] calls on an active buffer. *)
Lemma bufferAll_active :
  forall es w, Inv w -> isActive (buf w) = true ->
    let w' := bufferAll es w in
    Inv w'
    /\ isActive (buf w') = true
    /\ shouldAccumulateDeltas (buf w') = shouldAccumulateDeltas (buf w)
    /\ delivered w' = delivered w
    /\ latestEvent (buf w') = last (map Some es) (latestEvent (buf w))
    /\ accumulatedDeltas (buf w')
       = fold_left (accumulateIf (shouldAccumulateDeltas (buf w))) es
                   (accumulatedDeltas (buf w)).
Proof.
  induction es as [|e es IH]; intros w HI Hact.
  - cbv zeta. simpl. repeat split; auto.
  - destruct (buffer_active e w Hact) as (Ha & Hs & Hd & Hl & Hacc).
    destruct (IH (buffer e w) (Inv_buffer e w HI) Ha)
      as (HI' & Ha' & Hs' & Hd' & Hl' & Hacc').
    change (bufferAll (e :: es) w) with (bufferAll es (buffer e w)).
    cbv zeta. repeat split; auto; try congruence.
    + rewrite Hl', Hl. change (map Some (e :: es)) with (Some e :: map Some es).
      symmetry. apply last_cons_default.
    + rewrite Hacc', Hs, Hacc. reflexivity.
Qed.

(** A burst ending with [e], then one refresh: exactly one call of the
    callback is added, with [e] and the accumulator of the burst (or
    [undefined]); afterwards the buffer is as good as new. *)
Lemma burst_then_frame :
  forall w es e, Inv w -> isActive (buf w) = true ->
    let sh := shouldAccumulateDeltas (buf w) in
    let acc := fold_left (accumulateIf sh) (es ++ [e])
                         (accumulatedDeltas (buf w)) in
    let w' := animationFrame (bufferAll (es ++ [e]) w) in
    delivered w'
    = delivered w ++ [(e, if sh && isScrollEvent e then Some acc else None)]
    /\ buf w' = mkBuffer None zeroDeltas None sh true
    /\ rafQueue w' = [].
Proof.
  intros w es e HI Hact.
  destruct (bufferAll_active (es ++ [e]) w HI Hact)
    as (HI1 & Ha1 & Hs1 & Hd1 & Hl1 & Hacc1).
  rewrite map_app in Hl1. change (map Some [e]) with [Some e] in Hl1.
  rewrite last_last in Hl1.
  cbv zeta.
  destruct (rafId (buf (bufferAll (es ++ [e]) w))) as [id|] eqn:Hid.
  - rewrite (animationFrame_scheduled _ id HI1 Hid).
    unfold flush. simpl. rewrite Hl1, Hs1, Hd1, Hacc1, Ha1. auto.
  - unfold Inv in HI1. rewrite Hid in HI1. destruct HI1 as (_ & Hnone & _).
    congruence.
Qed.

(** With accumulation enabled a burst of scroll-type events adds every
    event of the burst to the accumulator. *)
Lemma accumulateIf_scroll :
  forall es acc, forallb isScrollEvent es = true ->
    fold_left (accumulateIf true) es acc = fold_left accumulate es acc.
Proof.
  induction es as [|e es IH]; intros acc H; [reflexivity|].
  simpl in H. apply andb_true_iff in H. destruct H as (He & Hes).
  simpl. unfold accumulateIf at 2. rewrite He. simpl. apply IH, Hes.
Qed.

(** With accumulation disabled the accumulator is never touched. *)
Lemma accumulateIf_disabled :
  forall es acc, fold_left (accumulateIf false) es acc = acc.
Proof.
  induction es as [|e es IH]; intros acc; [reflexivity|]. simpl. apply IH.
Qed.

(** The accumulator adds up each component on its own. *)
Lemma fold_accumulate :
  forall es acc,
    fold_left accumulate es acc
    = mkDeltas
        (fold_left (fun s e => add s (ToNumber (ev_deltaX e))) es (deltaX acc))
        (fold_left (fun s e => add s (ToNumber (ev_deltaY e))) es (deltaY acc))
        (fold_left (fun s e => add s (ToNumber (ev_deltaZ e))) es (deltaZ acc)).
Proof.
  induction es as [|e es IH]; intros acc.
  - destruct acc; reflexivity.
  - simpl. rewrite IH. reflexivity.
Qed.

(** [0 + d] is [d], except that [0 + (-0)] is [0]. *)
Lemma add_zero_l : forall d, d <> S754_zero true -> add zero d = d.
Proof. intros [[]|[]| |[] m e] H; try reflexivity. congruence. Qed.

Lemma fold_accumulate_zero :
  forall es, fold_left accumulate es zeroDeltas = sumDeltas es.
Proof. intros es. rewrite fold_accumulate. reflexivity. Qed.

(** Once destroyed, nothing is ever delivered again. *)
Lemma Dead_destroy : forall w, Dead (destroy w).
Proof. intros w. split; reflexivity. Qed.

Lemma flush_Dead :
  forall w, Dead w -> Dead (flush w) /\ delivered (flush w) = delivered w.
Proof.
  intros [[le acc rid sh act] nx q del] (Ha & Hl). simpl in *. subst.
  unfold Dead, flush. simpl. auto.
Qed.

Lemma flushes_Dead :
  forall (q : list nat) w, Dead w ->
    Dead (fold_left (fun w' _ => flush w') q w)
    /\ delivered (fold_left (fun w' _ => flush w') q w) = delivered w.
Proof.
  induction q as [|h q IH]; intros w HD; [auto|].
  simpl. destruct (flush_Dead w HD) as (HD' & Hd').
  destruct (IH (flush w) HD') as (HD'' & Hd''). split; congruence.
Qed.

Lemma step_Dead :
  forall w o, Dead w -> Dead (step w o) /\ delivered (step w o) = delivered w.
Proof.
  intros w [e| |] HD; simpl.
  - destruct HD as (Ha & Hl). unfold buffer. rewrite Ha. simpl.
    repeat split; auto.
  - split; [apply Dead_destroy | reflexivity].
  - unfold animationFrame.
    apply (flushes_Dead (rafQueue w)
             (mkWorld (buf w) (rafNext w) [] (delivered w))).
    exact HD.
Qed.

Lemma run_Dead :
  forall ops w, Dead w -> delivered (run ops w) = delivered w.
Proof.
  induction ops as [|o ops IH]; intros w HD; [reflexivity|].
  destruct (step_Dead w o HD) as (HD' & Hd').
  change (run (o :: ops) w) with (run ops (step w o)).
  rewrite (IH _ HD'). exact Hd'.
Qed.

End SamplingBufferFacts.

Section SamplingBufferClaims.

Import JS SamplingBuffer.

(** C1.  A burst of N >= 1 events ([es] followed by [e]) submitted to an
    active buffer between two refreshes delivers nothing while it is
    submitted; the refresh that follows calls the delivery callback
    exactly once, with the last-submitted event [e]; a further refresh
    with no new event delivers nothing more. *)
Theorem buffer_burst_one_delivery_of_last :
  forall w es e,
    Reachable w -> isActive (buf w) = true ->
    let burst := bufferAll (es ++ [e]) w in
    delivered burst = delivered w
    /\ (exists deltas,
          delivered (animationFrame burst) = delivered w ++ [(e, deltas)])
    /\ delivered (animationFrame (animationFrame burst))
       = delivered (animationFrame burst).
Proof.
  intros w es e HR Hact burst.
  pose proof (Reachable_Inv w HR) as HI.
  destruct (bufferAll_active (es ++ [e]) w HI Hact) as (HI1 & _ & _ & Hd & _).
  destruct (burst_then_frame w es e HI Hact) as (Hdel & Hbuf & Hq).
  split; [exact Hd|]. split.
  - eexists. exact Hdel.
  - rewrite (animationFrame_idle (animationFrame burst)); [reflexivity| |].
    + apply Inv_animationFrame. exact HI1.
    + unfold burst. rewrite Hbuf. reflexivity.
Qed.

Lemma buffer_burst_one_delivery_of_last_witness :
  let burst := bufferAll ([moveEvent1] ++ [moveEvent2]) (new true) in
  delivered burst = delivered (new true)
  /\ (exists deltas,
        delivered (animationFrame burst)
        = delivered (new true) ++ [(moveEvent2, deltas)])
  /\ delivered (animationFrame (animationFrame burst))
     = delivered (animationFrame burst).
Proof.
  apply (buffer_burst_one_delivery_of_last (new true) [moveEvent1] moveEvent2).
  - apply reach_new.
  - reflexivity.
Defined.

(** C2.  (1) With accumulation enabled, a burst of wheel/scroll events
    submitted from the start of a refresh interval is delivered with the
    component-wise sum of the deltas of the whole burst.  (2) With
    accumulation disabled the delivered deltas argument is absent.
    (3) After every refresh the accumulated deltas are {0,0,0}.  (4) So a
    solitary wheel/scroll event submitted after a refresh is delivered
    with its own deltas only. *)
Theorem buffer_delivers_delta_sums :
  (forall w es e,
      Reachable w -> isActive (buf w) = true -> rafId (buf w) = None ->
      shouldAccumulateDeltas (buf w) = true ->
      forallb isScrollEvent (es ++ [e]) = true ->
      delivered (animationFrame (bufferAll (es ++ [e]) w))
      = delivered w ++ [(e, Some (sumDeltas (es ++ [e])))])
  /\ (forall w es e,
        Reachable w -> isActive (buf w) = true ->
        shouldAccumulateDeltas (buf w) = false ->
        delivered (animationFrame (bufferAll (es ++ [e]) w))
        = delivered w ++ [(e, None)])
  /\ (forall w,
        Reachable w ->
        accumulatedDeltas (buf (animationFrame w)) = zeroDeltas)
  /\ (forall w e,
        Reachable w -> isActive (buf w) = true ->
        shouldAccumulateDeltas (buf w) = true ->
        isScrollEvent e = true ->
        delivered (animationFrame (buffer e (animationFrame w)))
        = delivered (animationFrame w) ++ [(e, Some (sumDeltas [e]))]).
Proof.
  assert (Hzero : forall w, Inv w -> rafId (buf w) = None ->
                            accumulatedDeltas (buf w) = zeroDeltas).
  { intros w HI Hid. unfold Inv in HI. rewrite Hid in HI. apply HI. }
  assert (Hsum : forall w es e,
      Inv w -> isActive (buf w) = true -> rafId (buf w) = None ->
      shouldAccumulateDeltas (buf w) = true ->
      forallb isScrollEvent (es ++ [e]) = true ->
      delivered (animationFrame (bufferAll (es ++ [e]) w))
      = delivered w ++ [(e, Some (sumDeltas (es ++ [e])))]).
  { intros w es e HI Hact Hid Hsh Hscroll.
    destruct (burst_then_frame w es e HI Hact) as (Hdel & _).
    rewrite Hdel, Hsh, (Hzero w HI Hid).
    rewrite (accumulateIf_scroll _ _ Hscroll), fold_accumulate_zero.
    rewrite forallb_app in Hscroll. apply andb_true_iff in Hscroll.
    destruct Hscroll as (_ & He). simpl in He.
    rewrite andb_true_r in He. rewrite He. reflexivity. }
  assert (Hframe : forall w, Inv w ->
      rafId (buf (animationFrame w)) = None
      /\ isActive (buf (animationFrame w)) = isActive (buf w)
      /\ shouldAccumulateDeltas (buf (animationFrame w))
         = shouldAccumulateDeltas (buf w)).
  { intros w HI. destruct (rafId (buf w)) as [id|] eqn:Hid.
    - rewrite (animationFrame_scheduled w id HI Hid). unfold flush. simpl.
      destruct (latestEvent (buf w)); simpl; auto.
    - rewrite (animationFrame_idle w HI Hid). auto. }
  repeat split.
  - intros w es e HR. apply Hsum, Reachable_Inv, HR.
  - intros w es e HR Hact Hsh.
    destruct (burst_then_frame w es e (Reachable_Inv w HR) Hact) as (Hdel & _).
    rewrite Hdel, Hsh. reflexivity.
  - intros w HR. pose proof (Reachable_Inv w HR) as HI.
    apply Hzero; [apply Inv_animationFrame, HI | apply Hframe, HI].
  - intros w e HR Hact Hsh He. pose proof (Reachable_Inv w HR) as HI.
    destruct (Hframe w HI) as (Hid & Hact' & Hsh').
    apply (Hsum (animationFrame w) [] e).
    + apply Inv_animationFrame, HI.
    + congruence.
    + exact Hid.
    + congruence.
    + simpl. rewrite He. reflexivity.
Qed.

Lemma buffer_delivers_delta_sums_witness :
  delivered (animationFrame
               (bufferAll ([wheelEvent1] ++ [wheelEvent2]) (new true)))
  = delivered (new true)
    ++ [(wheelEvent2, Some (sumDeltas ([wheelEvent1] ++ [wheelEvent2])))]
  /\ delivered (animationFrame
                  (bufferAll ([wheelEvent1] ++ [wheelEvent2]) (new false)))
     = delivered (new false) ++ [(wheelEvent2, None)]
  /\ accumulatedDeltas (buf (animationFrame (new true))) = zeroDeltas
  /\ delivered (animationFrame (buffer wheelEvent2 (animationFrame (new true))))
     = delivered (animationFrame (new true))
       ++ [(wheelEvent2, Some (sumDeltas [wheelEvent2]))].
Proof.
  destruct buffer_delivers_delta_sums as (H1 & H2 & H3 & H4).
  split; [|split; [|split]].
  - apply (H1 (new true) [wheelEvent1] wheelEvent2);
      [apply reach_new | reflexivity | reflexivity | reflexivity
      | reflexivity].
  - apply (H2 (new false) [wheelEvent1] wheelEvent2);
      [apply reach_new | reflexivity | reflexivity].
  - apply (H3 (new true)). apply reach_new.
  - apply (H4 (new true) wheelEvent2);
      [apply reach_new | reflexivity | reflexivity | reflexivity].
Defined.

(** The numbers of the test "should accumulate deltas for wheel events":
    (10, 20, 0) and (5, 15, 0) are delivered as (15, 35, 0). *)
Example sumDeltas_wheel_test :
  delivered (animationFrame
               (bufferAll [wheelEvent1; wheelEvent2] (new true)))
  = [(wheelEvent2, Some (mkDeltas (ofZ 15) (ofZ 35) zero))].
Proof. vm_compute. reflexivity. Qed.

(** C3.  After [destroy()]: (1) [buffer] changes nothing; (2) whatever
    is called afterwards and however many refreshes pass, the delivery
    callback is never invoked again; (3) the flush that was scheduled
    before [destroy()] has been cancelled: no callback of the buffer is
    left in the host's queue; (4) [destroy()] is idempotent. *)
Theorem destroy_stops_delivery :
  (forall w e, buffer e (destroy w) = destroy w)
  /\ (forall w ops, delivered (run ops (destroy w)) = delivered w)
  /\ (forall w, Reachable w -> rafQueue (destroy w) = [])
  /\ (forall w, destroy (destroy w) = destroy w).
Proof.
  repeat split.
  - intros w ops. rewrite (run_Dead ops (destroy w) (Dead_destroy w)).
    reflexivity.
  - intros w HR. pose proof (Reachable_Inv w HR) as HI.
    unfold Inv in HI. unfold destroy. simpl.
    destruct (rafId (buf w)) as [id|]; destruct HI as (Hq & _ & _);
      rewrite Hq; [apply cancel_singleton | reflexivity].
Qed.

Lemma destroy_stops_delivery_witness :
  rafQueue (destroy (buffer moveEvent1 (new true))) = []
  /\ delivered (run [OpFrame; OpBuffer moveEvent2; OpFrame]
                   (destroy (buffer moveEvent1 (new true)))) = [].
Proof.
  destruct destroy_stops_delivery as (_ & H2 & H3 & _). split.
  - apply (H3 (buffer moveEvent1 (new true))).
    apply (reach_step (new true) (OpBuffer moveEvent1)), reach_new.
  - apply (H2 (buffer moveEvent1 (new true))).
Defined.

(** C10.  With accumulation enabled, when the last event of a burst is
    not a wheel/scroll event, the refresh delivers it with an absent
    deltas argument and leaves the buffer with zero accumulated deltas
    and nothing pending: whatever earlier wheel/scroll events of the
    burst had added to the accumulator is dropped and can no longer
    reach any later delivery. *)
Theorem flush_discards_deltas_of_non_scroll_burst :
  forall w es e,
    Reachable w -> isActive (buf w) = true ->
    shouldAccumulateDeltas (buf w) = true ->
    isScrollEvent e = false ->
    let w' := animationFrame (bufferAll (es ++ [e]) w) in
    delivered w' = delivered w ++ [(e, None)]
    /\ accumulatedDeltas (buf w') = zeroDeltas
    /\ buf w' = mkBuffer None zeroDeltas None true true.
Proof.
  intros w es e HR Hact Hsh He w'.
  destruct (burst_then_frame w es e (Reachable_Inv w HR) Hact)
    as (Hdel & Hbuf & _).
  fold w' in Hdel, Hbuf. rewrite Hsh, He in Hdel. rewrite Hsh in Hbuf.
  rewrite Hbuf. auto.
Qed.

Lemma flush_discards_deltas_of_non_scroll_burst_witness :
  let w' := animationFrame
              (bufferAll ([wheelEvent1] ++ [moveEvent1]) (new true)) in
  delivered w' = delivered (new true) ++ [(moveEvent1, None)]
  /\ accumulatedDeltas (buf w') = zeroDeltas
  /\ buf w' = mkBuffer None zeroDeltas None true true.
Proof.
  apply (flush_discards_deltas_of_non_scroll_burst
           (new true) [wheelEvent1] moveEvent1);
    [apply reach_new | reflexivity | reflexivity | reflexivity].
Defined.

(** The deltas (10, 20, 0) of a wheel event overwritten by a pointer
    move in the same interval appear in no delivery: the move is
    delivered without deltas, and the next wheel event with its own
    (5, 15, 0) only. *)
Example discarded_deltas_never_delivered :
  delivered
    (run [OpBuffer wheelEvent1; OpBuffer moveEvent1; OpFrame;
          OpBuffer wheelEvent2; OpFrame] (new true))
  = [(moveEvent1, None);
     (wheelEvent2, Some (mkDeltas (ofZ 5) (ofZ 15) zero))].
Proof. vm_compute. reflexivity. Qed.

End SamplingBufferClaims.

(* ================================================================== *)
(** * Properties of the PollingRateDetector *)

Section PollingRateDetectorFacts.

Import JS PollingRateDetector.

(** A call while the window stays short of [SAMPLE_SIZE]. *)
Lemma detect_collecting :
  forall now d,
    cachedPollingRate d = None ->
    (length (eventTimestamps d) + 1 < SAMPLE_SIZE)%nat ->
    detectPollingRate now d
    = (unknown, mkDetector (eventTimestamps d ++ [now]) None (detectedHz d)).
Proof.
  intros now [ts c hz] Hc Hlen. simpl in *. subst c.
  unfold detectPollingRate. simpl.
  assert (Hl : length (ts ++ [now]) = (length ts + 1)%nat)
    by (rewrite length_app; reflexivity).
  rewrite Hl.
  destruct (Nat.ltb_spec SAMPLE_SIZE (length ts + 1)) as [H|H]; [lia|].
  rewrite Hl.
  destruct (Nat.ltb_spec (length ts + 1) SAMPLE_SIZE) as [H'|H']; [|lia].
  reflexivity.
Qed.

(** The call that fills the window. *)
Lemma detect_full :
  forall now d,
    cachedPollingRate d = None ->
    (length (eventTimestamps d) + 1 = SAMPLE_SIZE)%nat ->
    let ts := eventTimestamps d ++ [now] in
    let deltas := calculateDeltas ts in
    let rate :=
      if (HIGH_POLLING_COUNT_THRESHOLD <=? highPollingCount deltas)%nat
      then high else standard in
    detectPollingRate now d
    = (rate, mkDetector ts (Some rate) (estimateHz deltas)).
Proof.
  intros now [ts c hz] Hc Hlen.
  cbn [eventTimestamps cachedPollingRate detectedHz] in *. subst c.
  unfold detectPollingRate.
  cbn [eventTimestamps cachedPollingRate detectedHz].
  assert (Hl : length (ts ++ [now]) = (length ts + 1)%nat)
    by (rewrite length_app; reflexivity).
  rewrite Hl.
  destruct (Nat.ltb_spec SAMPLE_SIZE (length ts + 1)) as [H|H]; [lia|].
  rewrite Hl.
  destruct (Nat.ltb_spec (length ts + 1) SAMPLE_SIZE) as [H'|H']; [lia|].
  cbv zeta.
  destruct (HIGH_POLLING_COUNT_THRESHOLD
            <=? highPollingCount (calculateDeltas (ts ++ [now])))%nat;
    reflexivity.
Qed.

(** A run of calls that does not fill the window. *)
Lemma detectAll_collecting :
  forall nows d,
    cachedPollingRate d = None ->
    (length (eventTimestamps d) + length nows < SAMPLE_SIZE)%nat ->
    detectAll nows d
    = (repeat unknown (length nows),
       mkDetector (eventTimestamps d ++ nows) None (detectedHz d)).
Proof.
  induction nows as [|now nows IH]; intros d Hc Hlen.
  - simpl. rewrite app_nil_r. destruct d; simpl in *; subst; reflexivity.
  - simpl in Hlen. simpl.
    rewrite (detect_collecting now d Hc) by lia.
    rewrite IH; simpl; [|reflexivity|rewrite length_app; simpl; lia].
    rewrite <- app_assoc. reflexivity.
Qed.

(** A run of calls that extends a run by one more call. *)
Lemma detectAll_snoc :
  forall nows now d,
    detectAll (nows ++ [now]) d
    = (fst (detectAll nows d)
         ++ [fst (detectPollingRate now (snd (detectAll nows d)))],
       snd (detectPollingRate now (snd (detectAll nows d)))).
Proof.
  induction nows as [|n nows IH]; intros now d.
  - simpl. destruct (detectPollingRate now d). reflexivity.
  - simpl. destruct (detectPollingRate n d) as [r d1].
    rewrite IH. destruct (detectAll nows d1) as [rs d2]. reflexivity.
Qed.

(** With a cached classification every call returns it and changes
    nothing. *)
Lemma detectAll_cached :
  forall nows d r,
    cachedPollingRate d = Some r ->
    detectAll nows d = (repeat r (length nows), d).
Proof.
  induction nows as [|now nows IH]; intros d r Hc; [reflexivity|].
  simpl. unfold detectPollingRate. rewrite Hc.
  rewrite (IH d r Hc). reflexivity.
Qed.

(** A call that returns a classification has it cached afterwards. *)
Lemma detect_caches :
  forall now d,
    fst (detectPollingRate now d) <> unknown ->
    cachedPollingRate (snd (detectPollingRate now d))
    = Some (fst (detectPollingRate now d)).
Proof.
  intros now d. unfold detectPollingRate.
  destruct (cachedPollingRate d) as [c|] eqn:Hc; simpl; [auto|].
  repeat match goal with
         | |- context [if ?b then _ else _] => destruct b; simpl
         end; congruence.
Qed.

Lemma eqb_zero_not_gtb :
  forall x, eqb x zero = true -> gtb x zero = false.
Proof. intros [[]|[]| |[] m e]; cbv; congruence. Qed.

End PollingRateDetectorFacts.

Section PollingRateDetectorClaims.

Import JS PollingRateDetector.

Lemma length_calculateDeltas :
  forall ts, length (calculateDeltas ts) = pred (length ts).
Proof.
  induction ts as [|prev rest IH]; [reflexivity|].
  destruct rest as [|cur rest']; [reflexivity|].
  change (calculateDeltas (prev :: cur :: rest'))
    with (sub cur prev :: calculateDeltas (cur :: rest')).
  simpl length in *. rewrite IH. reflexivity.
Qed.

Lemma estimateHz_nonempty :
  forall deltas, deltas <> [] ->
    estimateHz deltas
    = if gtb (avgDelta deltas) zero
      then Math_round (div (ofZ 1000) (avgDelta deltas))
      else zero.
Proof. intros [|d deltas] H; [congruence | reflexivity]. Qed.

(** The ten calls that fill the window of a new detector. *)
Lemma detectAll_ten :
  forall nows, length nows = SAMPLE_SIZE ->
    let deltas := calculateDeltas nows in
    let rate :=
      if (HIGH_POLLING_COUNT_THRESHOLD <=? highPollingCount deltas)%nat
      then high else standard in
    detectAll nows new
    = (repeat unknown 9 ++ [rate],
       mkDetector nows (Some rate) (estimateHz deltas)).
Proof.
  intros nows Hlen.
  destruct (exists_last (l := nows)) as (init & now & ->).
  { intros ->. discriminate Hlen. }
  rewrite length_app in Hlen. simpl in Hlen. unfold SAMPLE_SIZE in Hlen.
  assert (Hinit : length init = 9%nat) by lia.
  cbv zeta. rewrite detectAll_snoc.
  rewrite (detectAll_collecting init new eq_refl)
    by (simpl; unfold SAMPLE_SIZE; lia).
  cbn [fst snd]. rewrite Hinit.
  change (eventTimestamps new ++ init) with init.
  rewrite (detect_full now (mkDetector init None (detectedHz new)) eq_refl)
    by (cbn [eventTimestamps]; unfold SAMPLE_SIZE; lia).
  reflexivity.
Qed.

(** A window of ten samples, sample by sample. *)
Lemma ten_samples :
  forall nows : list number,
    length nows = 10%nat ->
    exists t0 t1 t2 t3 t4 t5 t6 t7 t8 t9,
      nows = [t0; t1; t2; t3; t4; t5; t6; t7; t8; t9].
Proof.
  intros nows H.
  do 10 (destruct nows as [|? nows]; [discriminate H|]).
  destruct nows; [|discriminate H].
  repeat eexists.
Qed.

(** What [calculateDeltas] computes on a full window are the nine
    consecutive-sample deltas. *)
Lemma calculateDeltas_samples :
  forall nows,
    length nows = 10%nat ->
    calculateDeltas nows = map (sampleDelta nows) (seq 0 9).
Proof.
  intros nows H.
  destruct (ten_samples nows H)
    as (t0 & t1 & t2 & t3 & t4 & t5 & t6 & t7 & t8 & t9 & ->).
  reflexivity.
Qed.

Lemma filter_map_length :
  forall (A B : Type) (f : A -> B) (p : B -> bool) l,
    length (filter p (map f l)) = length (filter (fun a => p (f a)) l).
Proof.
  intros A B f p. induction l as [|a l IH]; [reflexivity|].
  simpl. destruct (p (f a)); simpl; rewrite IH; reflexivity.
Qed.

Lemma fold_left_add_map :
  forall (A : Type) (f : A -> number) l acc,
    fold_left add (map f l) acc
    = fold_left (fun total a => add total (f a)) l acc.
Proof.
  intros A f. induction l as [|a l IH]; intros acc; [reflexivity|].
  simpl. apply IH.
Qed.

(** The count and the average of the code are those of the
    specification. *)
Lemma highPollingCount_samples :
  forall nows,
    length nows = 10%nat ->
    highPollingCount (calculateDeltas nows) = subThresholdCount nows.
Proof.
  intros nows H. rewrite (calculateDeltas_samples nows H).
  unfold highPollingCount, subThresholdCount. apply filter_map_length.
Qed.

Lemma avgDelta_samples :
  forall nows,
    length nows = 10%nat ->
    avgDelta (calculateDeltas nows) = averageDelta nows.
Proof.
  intros nows H. rewrite (calculateDeltas_samples nows H).
  unfold avgDelta, averageDelta, sum, lengthOf.
  rewrite fold_left_add_map, length_map, length_seq. reflexivity.
Qed.

(** C4.  (1) While fewer than 10 timestamps have been collected every
    call returns 'unknown'.  (2) The call that brings the 10th timestamp
    returns 'high' when at least 5 of the 9 consecutive-sample deltas
    (sample i+1 minus sample i) are below 1 ms and 'standard' otherwise;
    the estimated Hz is then Math.round (1000 / average delta), the
    average being the sum of the 9 deltas divided by 9, when that average
    is positive, and 0 when it is 0.  (3) Ten timestamps 0.125 ms apart
    give 'high' and more than 1000 Hz; (4) ten timestamps 8 ms apart give
    'standard' and less than 200 Hz. *)
Theorem detector_classifies_full_window :
  (forall nows,
      (length nows < 10)%nat ->
      fst (detectAll nows new) = repeat unknown (length nows))
  /\ (forall nows,
        length nows = 10%nat ->
        let avg := averageDelta nows in
        let d := snd (detectAll nows new) in
        fst (detectAll nows new)
        = repeat unknown 9
          ++ [if (5 <=? subThresholdCount nows)%nat then high else standard]
        /\ (gtb avg zero = true ->
            getDetectedHz d = Math_round (div (ofZ 1000) avg))
        /\ (eqb avg zero = true -> getDetectedHz d = zero))
  /\ (last (fst (detectAll timestamps8000Hz new)) unknown = high
      /\ ltb (ofZ 1000)
             (getDetectedHz (snd (detectAll timestamps8000Hz new))) = true)
  /\ (last (fst (detectAll timestamps125Hz new)) unknown = standard
      /\ ltb (getDetectedHz (snd (detectAll timestamps125Hz new)))
             (ofZ 200) = true).
Proof.
  split; [|split; [|split]].
  - intros nows Hlen.
    rewrite (detectAll_collecting nows new eq_refl)
      by (simpl; unfold SAMPLE_SIZE; lia).
    reflexivity.
  - intros nows Hlen. cbv zeta.
    assert (Hne : calculateDeltas nows <> []).
    { rewrite (calculateDeltas_samples nows Hlen). discriminate. }
    rewrite (detectAll_ten nows Hlen). cbn [fst snd].
    unfold getDetectedHz. cbn [detectedHz].
    rewrite (estimateHz_nonempty _ Hne).
    rewrite (highPollingCount_samples nows Hlen).
    rewrite (avgDelta_samples nows Hlen).
    repeat split.
    + intros ->. reflexivity.
    + intros H. rewrite (eqb_zero_not_gtb _ H). reflexivity.
  - vm_compute. auto.
  - vm_compute. auto.
Qed.

(** The theorem at work: three calls; the 8000 Hz scenario; a clock that
    stands still (average 0, so 0 Hz); five deltas of 0.5 ms followed by
    7.5, 10, 10, 10 ms, which is 'high' with round (1000 / (40 / 9)) = 225
    Hz, not the 2000 Hz of the first delta; and four deltas of 0.5 ms
    followed by 8, 10, 10, 10, 10 ms, which is 'standard' with
    round (1000 / (50 / 9)) = 180 Hz. *)
Lemma detector_classifies_full_window_witness :
  fst (detectAll (spaced (ofZ 8) zero 3) new) = repeat unknown 3
  /\ fst (detectAll timestamps8000Hz new) = repeat unknown 9 ++ [high]
  /\ getDetectedHz (snd (detectAll timestamps8000Hz new)) = ofZ 8000
  /\ getDetectedHz (snd (detectAll (repeat (ofZ 7) 10) new)) = zero
  /\ fst (detectAll fiveFastDeltas new) = repeat unknown 9 ++ [high]
  /\ getDetectedHz (snd (detectAll fiveFastDeltas new)) = ofZ 225
  /\ fst (detectAll fourFastDeltas new) = repeat unknown 9 ++ [standard]
  /\ getDetectedHz (snd (detectAll fourFastDeltas new)) = ofZ 180.
Proof.
  destruct detector_classifies_full_window as (H1 & H2 & _ & _).
  destruct (H2 timestamps8000Hz eq_refl) as (Ha1 & Ha2 & _).
  destruct (H2 (repeat (ofZ 7) 10) eq_refl) as (_ & _ & Hb3).
  destruct (H2 fiveFastDeltas eq_refl) as (Hc1 & Hc2 & _).
  destruct (H2 fourFastDeltas eq_refl) as (Hd1 & Hd2 & _).
  split; [apply (H1 (spaced (ofZ 8) zero 3)); vm_compute; lia|].
  split; [exact Ha1|].
  split; [rewrite Ha2 by reflexivity; reflexivity|].
  split; [apply Hb3; reflexivity|].
  split; [exact Hc1|].
  split; [rewrite Hc2 by reflexivity; reflexivity|].
  split; [exact Hd1|].
  rewrite Hd2 by reflexivity. reflexivity.
Defined.

(** C5.  (1) Once a call has returned a classification other than
    'unknown', every later call returns that same classification and
    leaves the detector as it is, whatever the clock shows.  (2) [reset]
    puts the detector back into its initial state: empty window, no
    cached classification, estimated Hz 0; (3) the first call after a
    [reset] returns 'unknown'. *)
Theorem detector_caches_until_reset :
  (forall d now nows,
      fst (detectPollingRate now d) <> unknown ->
      let r := fst (detectPollingRate now d) in
      let d' := snd (detectPollingRate now d) in
      detectAll nows d' = (repeat r (length nows), d'))
  /\ (forall d,
        reset d = new
        /\ eventTimestamps (reset d) = []
        /\ cachedPollingRate (reset d) = None
        /\ getDetectedHz (reset d) = zero)
  /\ (forall d now, fst (detectPollingRate now (reset d)) = unknown).
Proof.
  split; [|split].
  - intros d now nows Hr. cbv zeta.
    apply detectAll_cached, detect_caches, Hr.
  - intros d. repeat split.
  - intros d now. reflexivity.
Qed.

(** A detector that has seen 8000 Hz keeps saying 'high' when the
    following timestamps are 8 ms apart. *)
Lemma detector_caches_until_reset_witness :
  let first10 := snd (detectAll (removelast timestamps8000Hz) new) in
  let now := last timestamps8000Hz zero in
  detectAll (spaced (ofZ 8) now 12) (snd (detectPollingRate now first10))
  = (repeat (fst (detectPollingRate now first10)) 12,
     snd (detectPollingRate now first10)).
Proof.
  destruct detector_caches_until_reset as (H1 & _ & _).
  intros first10 now.
  apply (H1 first10 now (spaced (ofZ 8) now 12)).
  vm_compute. discriminate.
Defined.

Example detector_stays_high :
  fst (detectAll (timestamps8000Hz
                    ++ spaced (ofZ 8) (last timestamps8000Hz zero) 12) new)
  = repeat unknown 9 ++ repeat high 13.
Proof. vm_compute. reflexivity. Qed.

End PollingRateDetectorClaims.

(* ================================================================== *)
(** * Properties of the MetricsCollector *)

Section MetricsCollectorClaims.

Import JS MetricsCollector.

Lemma InStep_new : forall now, InStep (new now).
Proof. intros now. reflexivity. Qed.

Lemma InStep_step : forall c o, InStep c -> InStep (step c o).
Proof.
  intros [m fts pts] o H. unfold InStep in *.
  destruct o; cbn in *; try exact H; reflexivity.
Qed.

Lemma InStep_run : forall ops c, InStep c -> InStep (run ops c).
Proof.
  induction ops as [|o ops IH]; intros c H; [exact H|].
  apply (IH (step c o)), InStep_step, H.
Qed.

(** C6, as the code has it.  After every sequence of operations on a new
    collector, the [reductionPercentage] that [getMetrics] reports is 0
    when [rawEventCount] is 0, and otherwise
    Math.round (((raw - flushed) / raw) * 100) with the quotient and the
    product each rounded to binary64. *)
Theorem reduction_percentage_in_step :
  forall ops now now',
    let m := getMetrics now' (run ops (new now)) in
    let raw := rawEventCount m in
    let flushed := flushedEventCount m in
    reductionPercentage m
    = if raw =? 0 then zero
      else Math_round (mul (div (ofZ (raw - flushed)) (ofZ raw)) (ofZ 100)).
Proof.
  intros ops now now'. cbv zeta. unfold getMetrics.
  cbn [reductionPercentage rawEventCount flushedEventCount].
  apply (InStep_run ops (new now) (InStep_new now)).
Qed.

(** C6, as the specification has it, fails.  After 40 raw and 17 flushed
    events the value 100 * 23 / 40 is 57.5, which rounds to 58, in exact
    arithmetic as well as when the formula is evaluated in binary64 the
    way it is written.  The code divides first: 23 / 40 rounds to the
    binary64 number just below 0.575, its product with 100 rounds to
    57.49999999999999, and [reductionPercentage] is 57. *)
Lemma reduction_percentage_not_exact :
  let m := getMetrics zero (run fortyRawSeventeenFlushed (new zero)) in
  rawEventCount m = 40
  /\ flushedEventCount m = 17
  /\ exactReduction (rawEventCount m) (flushedEventCount m) = 58
  /\ writtenReduction (rawEventCount m) (flushedEventCount m) = ofZ 58
  /\ reductionPercentage m = ofZ 57
  /\ reductionPercentage m
     <> ofZ (exactReduction (rawEventCount m) (flushedEventCount m)).
Proof. vm_compute. repeat split; discriminate. Qed.

Lemma sameNumber_eq : forall x y, sameNumber x y = true -> x = y.
Proof.
  intros [s1|s1| |s1 m1 e1] [s2|s2| |s2 m2 e2]; simpl; try discriminate;
    try reflexivity.
  - intros H. apply eqb_prop in H. congruence.
  - intros H. apply eqb_prop in H. congruence.
  - intros H. apply andb_true_iff in H. destruct H as (H & He).
    apply andb_true_iff in H. destruct H as (Hs & Hm).
    apply eqb_prop in Hs. apply Pos.eqb_eq in Hm. apply Z.eqb_eq in He.
    congruence.
Qed.

Lemma agreeUpTo_39 : agreeUpTo 39 = true.
Proof. vm_compute. reflexivity. Qed.

Lemma agreeUpTo_correct :
  forall bound raw flushed,
    agreeUpTo bound = true ->
    (1 <= raw <= bound)%nat -> (flushed <= raw)%nat ->
    reduction (Z.of_nat raw) (Z.of_nat flushed)
    = ofZ (exactReduction (Z.of_nat raw) (Z.of_nat flushed)).
Proof.
  intros bound raw flushed Hall Hraw Hfl.
  unfold agreeUpTo in Hall. rewrite forallb_forall in Hall.
  assert (Hin : In raw (seq 1 bound)) by (apply in_seq; lia).
  specialize (Hall raw Hin). rewrite forallb_forall in Hall.
  apply sameNumber_eq, Hall, in_seq. lia.
Qed.

(** Below 40 raw events the code and the exact formula agree whenever
    the flushed count does not exceed the raw count. *)
Lemma reduction_exact_below_40 :
  forall raw flushed,
    0 < raw < 40 -> 0 <= flushed <= raw ->
    reduction raw flushed = ofZ (exactReduction raw flushed).
Proof.
  intros raw flushed Hraw Hfl.
  rewrite <- (Z2Nat.id raw), <- (Z2Nat.id flushed) by lia.
  apply (agreeUpTo_correct 39); [exact agreeUpTo_39 | lia | lia].
Qed.

(** The scenario of tests/MetricsCollector.test.ts: 100 raw and 10
    flushed events give 90. *)
Example reduction_percentage_test :
  reductionPercentage
    (metrics (run (repeat OpRecordRawEvent 100
                     ++ repeat OpRecordFlushedEvent 10) (new zero)))
  = ofZ 90.
Proof. vm_compute. reflexivity. Qed.

(** What the two counters are after a step. *)
Lemma counts_step :
  forall c o,
    let raw := rawEventCount (metrics c) in
    let flushed := flushedEventCount (metrics c) in
    rawEventCount (metrics (step c o))
    = match o with
      | OpRecordRawEvent => raw + 1
      | OpReset _ => 0
      | _ => raw
      end
    /\ flushedEventCount (metrics (step c o))
       = match o with
         | OpRecordFlushedEvent => flushed + 1
         | OpReset _ => 0
         | _ => flushed
         end.
Proof. intros [m fts pts] o. destruct o; split; reflexivity. Qed.

Lemma paired_run :
  forall ops owed c,
    Z.of_nat owed
    <= rawEventCount (metrics c) - flushedEventCount (metrics c) ->
    paired owed ops = true ->
    flushedEventCount (metrics (run ops c))
    <= rawEventCount (metrics (run ops c)).
Proof.
  induction ops as [|o ops IH]; intros owed c Howed Hp.
  - simpl. lia.
  - change (run (o :: ops) c) with (run ops (step c o)).
    destruct (counts_step c o) as (Hraw & Hfl).
    destruct o; simpl in Hp;
      try (apply (IH owed); [lia | exact Hp]).
    + apply (IH (S owed)); [lia | exact Hp].
    + destruct owed as [|k]; [discriminate|].
      apply (IH k); [lia | exact Hp].
    + apply (IH O); [simpl; lia | exact Hp].
Qed.

(** C7, as the code has it.  When, since the last [reset], every
    [recordFlushedEvent] is matched by an earlier [recordRawEvent] of its
    own, the raw count is at least the flushed count. *)
Theorem raw_count_bounds_flushed_when_paired :
  forall ops now,
    paired 0 ops = true ->
    let m := metrics (run ops (new now)) in
    flushedEventCount m <= rawEventCount m.
Proof.
  intros ops now Hp. cbv zeta.
  apply (paired_run ops O (new now)); [simpl; lia | exact Hp].
Qed.

Lemma raw_count_bounds_flushed_when_paired_witness :
  let m := metrics (run [OpRecordRawEvent; OpRecordRawEvent;
                         OpRecordFlushedEvent; OpGetMetrics zero;
                         OpReset zero; OpRecordRawEvent;
                         OpRecordFlushedEvent] (new zero)) in
  flushedEventCount m <= rawEventCount m.
Proof.
  apply (raw_count_bounds_flushed_when_paired
           [OpRecordRawEvent; OpRecordRawEvent;
            OpRecordFlushedEvent; OpGetMetrics zero;
            OpReset zero; OpRecordRawEvent;
            OpRecordFlushedEvent] zero).
  reflexivity.
Defined.

(** C7, as the specification has it, fails: the collector counts what
    it is told, and one [recordFlushedEvent] on a new collector (the
    test "should record flushed events") leaves 0 raw and 1 flushed. *)
Lemma raw_count_below_flushed :
  let m := metrics (run [OpRecordFlushedEvent] (new zero)) in
  rawEventCount m = 0
  /\ flushedEventCount m = 1
  /\ ~ (rawEventCount m >= flushedEventCount m).
Proof. vm_compute. repeat split. intros H. apply H. reflexivity. Qed.

End MetricsCollectorClaims.

(* ================================================================== *)
(** * Properties of the YieldScheduler *)

Section YieldSchedulerClaims.

Import YieldScheduler.

(** C8.  On every host and for every priority, [processWithYield]
    completes normally: nothing is thrown to the caller.  Its effects
    are some yields followed by exactly one call of the callback, and
    the zero-delay timer is among the yields exactly when the native
    primitive is not supported or calling it fails. *)
Theorem processWithYield_never_throws :
  forall h priority,
    exists yields,
      processWithYield h priority = (yields ++ [Callback], Normal tt)
      /\ existsb isCallback yields = false
      /\ existsb isTimerYield yields
         = negb (isSchedulerSupported h) || nativeFails h.
Proof.
  intros [[| |[| |[| |]]]|] priority;
    first
      [ solve [exists [SetTimeout 0]; repeat split; reflexivity]
      | solve [exists [NativeYield []]; repeat split; reflexivity]
      | solve [exists [NativeYield []; SetTimeout 0];
               repeat split; reflexivity] ].
Qed.

(** C9 on the code.  With the native primitive there and working,
    [processWithYield(callback, 'background')] calls [scheduler.yield()]
    with no argument at all; and on no host does the priority make any
    difference to what the scheduler does. *)
Theorem processWithYield_drops_priority :
  processWithYield (Some (scheduler_object (yield_function Resolves)))
                   background
  = ([NativeYield []; Callback], Normal tt)
  /\ (forall h p,
        existsb (isNativeYieldWith p) (fst (processWithYield h p)) = false)
  /\ (forall h p p', processWithYield h p = processWithYield h p').
Proof.
  split; [reflexivity|]. split.
  - intros [[| |[| |[| |]]]|] []; reflexivity.
  - intros h p p'. reflexivity.
Qed.

End YieldSchedulerClaims.

(* ================================================================== *)
(** * Further properties of the SamplingBuffer *)

Section SamplingBufferMore.

Import JS SamplingBuffer.

Lemma Reachable_run :
  forall ops w, Reachable w -> Reachable (run ops w).
Proof.
  induction ops as [|o ops IH]; intros w HR; [exact HR|].
  apply (IH (step w o)), reach_step, HR.
Qed.

Lemma Inv_run : forall ops w, Inv w -> Inv (run ops w).
Proof.
  induction ops as [|o ops IH]; intros w HI; [exact HI|].
  apply (IH (step w o)), Inv_step, HI.
Qed.

(** X1.  At every moment of the life of a buffer at most one flush is
    scheduled with the host, and one is scheduled exactly while an event
    is pending. *)
Theorem at_most_one_flush_scheduled :
  forall accumulateDeltas ops,
    let w := run ops (new accumulateDeltas) in
    (length (rafQueue w) <= 1)%nat
    /\ (rafQueue w = [] <-> latestEvent (buf w) = None).
Proof.
  intros a ops w.
  pose proof (Inv_run ops (new a) (Inv_new a)) as HI. fold w in HI.
  unfold Inv in HI. destruct (rafId (buf w)) as [id|].
  - destruct HI as (Hq & Hl & _). rewrite Hq. split; [simpl; lia|].
    split; [discriminate | intros H; contradiction].
  - destruct HI as (Hq & Hl & _). rewrite Hq. split; [simpl; lia|].
    split; auto.
Qed.

Lemma at_most_one_flush_scheduled_witness :
  let w := run [OpBuffer moveEvent1; OpBuffer moveEvent2] (new true) in
  (length (rafQueue w) <= 1)%nat
  /\ (rafQueue w = [] <-> latestEvent (buf w) = None).
Proof.
  apply (at_most_one_flush_scheduled
           true [OpBuffer moveEvent1; OpBuffer moveEvent2]).
Defined.

(** What one operation adds to the deliveries and to the pending event. *)
Lemma step_counts :
  forall w o, Inv w ->
    (length (delivered (step w o))
     <= length (delivered w) + (if isFrame o then 1 else 0))%nat
    /\ (length (delivered (step w o)) + pendingCount (step w o)
        <= length (delivered w) + pendingCount w
           + (if isBufferCall o then 1 else 0))%nat.
Proof.
  intros w [e| |] HI.
  - destruct w as [[le acc rid sh act] nx q del].
    unfold step, buffer, pendingCount. simpl.
    destruct act; simpl; [|lia].
    destruct rid; simpl; destruct le; simpl; lia.
  - unfold step, destroy, pendingCount. simpl. lia.
  - unfold step. destruct (rafId (buf w)) as [id|] eqn:Hid.
    + rewrite (animationFrame_scheduled w id HI Hid).
      unfold Inv in HI. rewrite Hid in HI. destruct HI as (_ & Hl & _).
      unfold flush, pendingCount. simpl.
      destruct (latestEvent (buf w)); [|congruence].
      simpl. rewrite length_app. simpl. lia.
    + rewrite (animationFrame_idle w HI Hid). simpl. lia.
Qed.

Lemma run_counts :
  forall ops w, Inv w ->
    (length (delivered (run ops w))
     <= length (delivered w) + countFrames ops)%nat
    /\ (length (delivered (run ops w)) + pendingCount (run ops w)
        <= length (delivered w) + pendingCount w + countBufferCalls ops)%nat.
Proof.
  induction ops as [|o ops IH]; intros w HI.
  - simpl. unfold countFrames, countBufferCalls. simpl. lia.
  - change (run (o :: ops) w) with (run ops (step w o)).
    destruct (IH (step w o) (Inv_step w o HI)) as (IH1 & IH2).
    destruct (step_counts w o HI) as (H1 & H2).
    unfold countFrames, countBufferCalls in *. simpl.
    destruct (isFrame o), (isBufferCall o); simpl; lia.
Qed.

(** X2.  Rate reduction: whatever is called and in whatever order, the
    delivery callback has been invoked at most once per display refresh,
    and the deliveries made plus the event still pending never exceed
    the number of [buffer] calls. *)
Theorem deliveries_bounded_by_refreshes :
  forall accumulateDeltas ops,
    let w := run ops (new accumulateDeltas) in
    (length (delivered w) <= countFrames ops)%nat
    /\ (length (delivered w) + pendingCount w <= countBufferCalls ops)%nat.
Proof.
  intros a ops w.
  destruct (run_counts ops (new a) (Inv_new a)) as (H1 & H2).
  simpl in H1, H2. fold w in H1, H2. auto.
Qed.

(** Only the wheel/scroll events of a burst reach the accumulator. *)
Lemma accumulateIf_filter :
  forall es acc,
    fold_left (accumulateIf true) es acc
    = fold_left accumulate (filter isScrollEvent es) acc.
Proof.
  induction es as [|e es IH]; intros acc; [reflexivity|].
  simpl. unfold accumulateIf at 2. simpl.
  destruct (isScrollEvent e); simpl; apply IH.
Qed.

(** X3.  With accumulation enabled, a burst that mixes wheel/scroll events
    with other events and ends with a wheel/scroll event is delivered
    with the sum of the deltas of its wheel/scroll events alone: the
    other events neither add to the accumulator nor reset it. *)
Theorem mixed_burst_sums_scroll_events_only :
  forall w es e,
    Reachable w -> isActive (buf w) = true -> rafId (buf w) = None ->
    shouldAccumulateDeltas (buf w) = true ->
    isScrollEvent e = true ->
    delivered (animationFrame (bufferAll (es ++ [e]) w))
    = delivered w
      ++ [(e, Some (sumDeltas (filter isScrollEvent (es ++ [e]))))].
Proof.
  intros w es e HR Hact Hid Hsh He.
  pose proof (Reachable_Inv w HR) as HI.
  destruct (burst_then_frame w es e HI Hact) as (Hdel & _).
  rewrite Hdel, Hsh, He. simpl.
  unfold Inv in HI. rewrite Hid in HI. destruct HI as (_ & _ & Hz).
  rewrite Hz, accumulateIf_filter, fold_accumulate_zero. reflexivity.
Qed.

Lemma mixed_burst_sums_scroll_events_only_witness :
  delivered (animationFrame
               (bufferAll ([wheelEvent1; moveEvent1] ++ [wheelEvent2])
                          (new true)))
  = delivered (new true)
    ++ [(wheelEvent2,
         Some (sumDeltas (filter isScrollEvent
                                 ([wheelEvent1; moveEvent1] ++ [wheelEvent2]))))].
Proof.
  apply (mixed_burst_sums_scroll_events_only
           (new true) [wheelEvent1; moveEvent1] wheelEvent2);
    [apply reach_new | reflexivity | reflexivity | reflexivity | reflexivity].
Defined.

Lemma add_NaN_r : forall x, add x NaN = NaN.
Proof. intros [s|s| |s m e]; reflexivity. Qed.

Lemma total_NaN_absorbs :
  forall (component : Event -> option number) es,
    fold_left (fun s e => add s (ToNumber (component e))) es NaN = NaN.
Proof.
  intros component. induction es as [|e es IH]; [reflexivity|].
  simpl. exact IH.
Qed.

(** One event without the component makes the whole sum NaN. *)
Lemma total_missing_component :
  forall (component : Event -> option number) es x,
    In x es -> component x = None -> total component es = NaN.
Proof.
  intros component es x Hin Hx. unfold total.
  destruct (in_split x es Hin) as (l1 & l2 & ->).
  rewrite fold_left_app. simpl. rewrite Hx. simpl.
  rewrite add_NaN_r. apply total_NaN_absorbs.
Qed.

(** X4.  With accumulation enabled, when a wheel/scroll-typed event of the
    burst has no delta properties (the browser's 'scroll' event is a plain
    [Event]), adding [undefined] turns the accumulator into NaN: a burst
    that ends with a wheel/scroll event is then delivered with
    {NaN, NaN, NaN}, whatever deltas the other events carry. *)
Theorem scroll_event_without_deltas_delivers_NaN :
  forall w es e x,
    Reachable w -> isActive (buf w) = true -> rafId (buf w) = None ->
    shouldAccumulateDeltas (buf w) = true ->
    isScrollEvent e = true ->
    In x (es ++ [e]) -> isScrollEvent x = true -> lacksDeltas x = true ->
    delivered (animationFrame (bufferAll (es ++ [e]) w))
    = delivered w ++ [(e, Some (mkDeltas NaN NaN NaN))].
Proof.
  intros w es e x HR Hact Hid Hsh He Hin Hx Hlack.
  pose proof (Reachable_Inv w HR) as HI.
  destruct (burst_then_frame w es e HI Hact) as (Hdel & _).
  rewrite Hdel, Hsh, He. simpl.
  unfold Inv in HI. rewrite Hid in HI. destruct HI as (_ & _ & Hz).
  rewrite Hz, accumulateIf_filter, fold_accumulate_zero.
  assert (Hin' : In x (filter isScrollEvent (es ++ [e])))
    by (apply filter_In; auto).
  unfold lacksDeltas in Hlack.
  destruct (ev_deltaX x) eqn:HX; [discriminate|].
  destruct (ev_deltaY x) eqn:HY; [discriminate|].
  destruct (ev_deltaZ x) eqn:HZ; [discriminate|].
  unfold sumDeltas.
  rewrite (total_missing_component ev_deltaX _ x Hin' HX).
  rewrite (total_missing_component ev_deltaY _ x Hin' HY).
  rewrite (total_missing_component ev_deltaZ _ x Hin' HZ).
  reflexivity.
Qed.

Lemma scroll_event_without_deltas_delivers_NaN_witness :
  delivered (animationFrame
               (bufferAll ([mkEvent 5 "scroll" None None None] ++ [wheelEvent1])
                          (new true)))
  = delivered (new true) ++ [(wheelEvent1, Some (mkDeltas NaN NaN NaN))].
Proof.
  apply (scroll_event_without_deltas_delivers_NaN
           (new true) [mkEvent 5 "scroll" None None None] wheelEvent1
           (mkEvent 5 "scroll" None None None));
    [apply reach_new | reflexivity | reflexivity | reflexivity | reflexivity
    | left; reflexivity | reflexivity | reflexivity].
Defined.

(** With accumulation disabled nothing ever touches the accumulator. *)
Lemma disabled_step :
  forall w o,
    shouldAccumulateDeltas (buf w) = false ->
    accumulatedDeltas (buf w) = zeroDeltas ->
    Forall (fun d => snd d = None) (delivered w) ->
    shouldAccumulateDeltas (buf (step w o)) = false
    /\ accumulatedDeltas (buf (step w o)) = zeroDeltas
    /\ Forall (fun d => snd d = None) (delivered (step w o)).
Proof.
  assert (Hflush : forall w,
    shouldAccumulateDeltas (buf w) = false ->
    accumulatedDeltas (buf w) = zeroDeltas ->
    Forall (fun d => snd d = None) (delivered w) ->
    shouldAccumulateDeltas (buf (flush w)) = false
    /\ accumulatedDeltas (buf (flush w)) = zeroDeltas
    /\ Forall (fun d => snd d = None) (delivered (flush w))).
  { intros [[le acc rid sh act] nx q del] Hsh Hacc Hdel. simpl in *. subst.
    unfold flush. simpl. destruct le; simpl; repeat split; auto.
    apply Forall_app. split; [exact Hdel | repeat constructor]. }
  intros w [e| |] Hsh Hacc Hdel.
  - destruct w as [[le acc rid sh act] nx q del]. simpl in *. subst.
    unfold buffer. simpl. destruct act; simpl; [|auto].
    destruct rid; simpl; auto.
  - unfold step, destroy. simpl. auto.
  - unfold step, animationFrame.
    generalize (rafQueue w).
    assert (H0 : shouldAccumulateDeltas
                   (buf (mkWorld (buf w) (rafNext w) [] (delivered w))) = false
                 /\ accumulatedDeltas
                      (buf (mkWorld (buf w) (rafNext w) [] (delivered w)))
                    = zeroDeltas
                 /\ Forall (fun d => snd d = None)
                           (delivered
                              (mkWorld (buf w) (rafNext w) [] (delivered w))))
      by (simpl; auto).
    revert H0. generalize (mkWorld (buf w) (rafNext w) [] (delivered w)).
    intros w0 H0 q. revert w0 H0.
    induction q as [|h q IH]; intros w0 (H1 & H2 & H3); [simpl; auto|].
    simpl. apply IH. apply Hflush; assumption.
Qed.

(** X5.  A buffer constructed with [accumulateDeltas = false] never hands
    deltas to the delivery callback, whatever is submitted and whenever,
    and its accumulator is {0,0,0} at every moment. *)
Theorem disabled_buffer_never_delivers_deltas :
  forall ops,
    let w := run ops (new false) in
    Forall (fun d => snd d = None) (delivered w)
    /\ accumulatedDeltas (buf w) = zeroDeltas.
Proof.
  intros ops.
  assert (H : forall w,
    shouldAccumulateDeltas (buf w) = false ->
    accumulatedDeltas (buf w) = zeroDeltas ->
    Forall (fun d => snd d = None) (delivered w) ->
    Forall (fun d => snd d = None) (delivered (run ops w))
    /\ accumulatedDeltas (buf (run ops w)) = zeroDeltas).
  { induction ops as [|o ops IH]; intros w Hsh Hacc Hdel; [simpl; auto|].
    change (run (o :: ops) w) with (run ops (step w o)).
    destruct (disabled_step w o Hsh Hacc Hdel) as (H1 & H2 & H3).
    apply IH; assumption. }
  apply H; [reflexivity | reflexivity | constructor].
Qed.

End SamplingBufferMore.

(* ================================================================== *)
(** * Further properties of the PollingRateDetector *)

Section PollingRateDetectorMore.

Import JS PollingRateDetector.

Lemma Consistent_new : Consistent new.
Proof. unfold Consistent, new, SAMPLE_SIZE. simpl. split; [lia|reflexivity]. Qed.

Lemma Consistent_step : forall d o, Consistent d -> Consistent (step d o).
Proof.
  intros d [now|] HC; [|exact Consistent_new].
  unfold step. unfold Consistent in HC.
  destruct (cachedPollingRate d) as [rate|] eqn:Hc.
  - unfold detectPollingRate. rewrite Hc. simpl.
    unfold Consistent. rewrite Hc. exact HC.
  - destruct HC as (Hlen & Hhz).
    destruct (Nat.eq_dec (length (eventTimestamps d) + 1) SAMPLE_SIZE)
      as [Hfull|Hshort].
    + rewrite (detect_full now d Hc Hfull). cbv zeta. cbn [snd].
      unfold Consistent. cbn [cachedPollingRate eventTimestamps detectedHz].
      rewrite length_app. simpl. repeat split; auto.
    + rewrite (detect_collecting now d Hc) by lia. cbn [snd].
      unfold Consistent. cbn [cachedPollingRate eventTimestamps detectedHz].
      rewrite length_app. simpl. split; [lia | exact Hhz].
Qed.

Lemma Consistent_run : forall ops d, Consistent d -> Consistent (run ops d).
Proof.
  induction ops as [|o ops IH]; intros d HC; [exact HC|].
  apply (IH (step d o)), Consistent_step, HC.
Qed.

(** X6.  Through any sequence of [detectPollingRate] and [reset] calls:
    the window never holds more than 10 timestamps; a classification is
    cached exactly when the window holds 10; 'unknown' is never cached;
    while nothing is cached the estimated Hz is 0; and what is cached is
    the classification and the estimate of the 10 timestamps that are
    stored, so later timestamps are not even recorded. *)
Theorem detector_window_and_cache_consistent :
  forall ops,
    let d := run ops new in
    (length (eventTimestamps d) <= 10)%nat
    /\ (cachedPollingRate d = None <-> (length (eventTimestamps d) < 10)%nat)
    /\ cachedPollingRate d <> Some unknown
    /\ (cachedPollingRate d = None -> getDetectedHz d = zero)
    /\ (forall rate,
          cachedPollingRate d = Some rate ->
          rate = classify (eventTimestamps d)
          /\ getDetectedHz d
             = estimateHz (calculateDeltas (eventTimestamps d))).
Proof.
  intros ops d.
  pose proof (Consistent_run ops new Consistent_new) as HC. fold d in HC.
  unfold Consistent, SAMPLE_SIZE in HC. unfold getDetectedHz.
  destruct (cachedPollingRate d) as [rate|].
  - destruct HC as (Hlen & Hrate & Hhz). rewrite Hlen.
    repeat split; try lia; try discriminate.
    + intros H. injection H as H. rewrite H in Hrate. unfold classify in Hrate.
      destruct (_ <=? _)%nat; discriminate.
    + injection H as <-. exact Hrate.
    + exact Hhz.
  - destruct HC as (Hlen & Hhz).
    repeat split; try lia; try discriminate; auto.
Qed.

Lemma detector_window_and_cache_consistent_witness :
  let d := run (map OpDetect timestamps8000Hz
                  ++ [OpDetect (ofZ 50); OpDetect (ofZ 90)]) new in
  (length (eventTimestamps d) <= 10)%nat
  /\ (cachedPollingRate d = None <-> (length (eventTimestamps d) < 10)%nat)
  /\ cachedPollingRate d <> Some unknown
  /\ (cachedPollingRate d = None -> getDetectedHz d = zero)
  /\ (forall rate,
        cachedPollingRate d = Some rate ->
        rate = classify (eventTimestamps d)
        /\ getDetectedHz d
           = estimateHz (calculateDeltas (eventTimestamps d))).
Proof.
  apply (detector_window_and_cache_consistent
           (map OpDetect timestamps8000Hz
              ++ [OpDetect (ofZ 50); OpDetect (ofZ 90)])).
Defined.

(** A finite number minus itself is 0. *)
Lemma sub_diag : forall t, isFinite t = true -> sub t t = zero.
Proof.
  intros [[]|s| |s m e] H; try discriminate H; try reflexivity.
  unfold sub, SFsub. rewrite Z.sub_diag. reflexivity.
Qed.

Lemma calculateDeltas_repeat :
  forall t n, isFinite t = true ->
    calculateDeltas (repeat t (S n)) = repeat zero n.
Proof.
  intros t n Ht. induction n as [|n IH]; [reflexivity|].
  change (repeat t (S (S n))) with (t :: repeat t (S n)).
  change (calculateDeltas (t :: repeat t (S n)))
    with (sub t t :: calculateDeltas (repeat t (S n))).
  rewrite IH, (sub_diag t Ht). reflexivity.
Qed.

(** X7.  A clock that does not advance: ten calls that all read the same
    finite timestamp are classified 'high', all nine differences being
    0 < 1 ms, with an estimated 0 Hz. *)
Theorem frozen_clock_classified_high :
  forall t,
    isFinite t = true ->
    detectAll (repeat t 10) new
    = (repeat unknown 9 ++ [high],
       mkDetector (repeat t 10) (Some high) zero).
Proof.
  intros t Ht.
  rewrite (detectAll_ten (repeat t 10)) by apply repeat_length.
  cbv zeta. rewrite (calculateDeltas_repeat t 9 Ht). reflexivity.
Qed.

Lemma frozen_clock_classified_high_witness :
  detectAll (repeat (ofZ 42) 10) new
  = (repeat unknown 9 ++ [high],
     mkDetector (repeat (ofZ 42) 10) (Some high) zero).
Proof. apply (frozen_clock_classified_high (ofZ 42)). reflexivity. Defined.

End PollingRateDetectorMore.

(* ================================================================== *)
(** * Further properties of the MetricsCollector *)

Section MetricsCollectorMore.

Import JS MetricsCollector.

Lemma sinceReset_no_reset :
  forall ops, existsb isReset ops = false -> sinceReset ops = ops.
Proof.
  intros [|o rest] H; [reflexivity|].
  simpl in H. apply orb_false_iff in H. destruct H as (Ho & Hrest).
  simpl. rewrite Hrest, Ho. reflexivity.
Qed.

(** The counters after a run that starts from any collector. *)
Lemma run_counts_since_reset :
  forall ops c,
    rawEventCount (metrics (run ops c))
    = (if existsb isReset ops then 0 else rawEventCount (metrics c))
      + Z.of_nat (length (filter isRecordRaw (sinceReset ops)))
    /\ flushedEventCount (metrics (run ops c))
       = (if existsb isReset ops then 0 else flushedEventCount (metrics c))
         + Z.of_nat (length (filter isRecordFlushed (sinceReset ops))).
Proof.
  induction ops as [|o rest IH]; intros c.
  - simpl. lia.
  - change (run (o :: rest) c) with (run rest (step c o)).
    destruct (IH (step c o)) as (IHr & IHf).
    destruct (counts_step c o) as (Hr & Hf).
    rewrite IHr, IHf, Hr, Hf. clear IHr IHf Hr Hf.
    change (existsb isReset (o :: rest))
      with (isReset o || existsb isReset rest).
    change (sinceReset (o :: rest))
      with (if existsb isReset rest then sinceReset rest
            else if isReset o then rest else o :: rest).
    destruct (existsb isReset rest) eqn:Hrest.
    + rewrite orb_true_r. split; reflexivity.
    + rewrite orb_false_r, (sinceReset_no_reset rest Hrest).
      destruct o; simpl; rewrite ?Zpos_P_of_succ_nat; split; lia.
Qed.

(** X8.  The two counters count calls: after any sequence of operations
    on a new collector, [rawEventCount] is the number of [recordRawEvent]
    calls, and [flushedEventCount] the number of [recordFlushedEvent]
    calls, made since the last [reset]; no other method touches them. *)
Theorem counters_count_calls_since_reset :
  forall ops now,
    let m := metrics (run ops (new now)) in
    rawEventCount m
    = Z.of_nat (length (filter isRecordRaw (sinceReset ops)))
    /\ flushedEventCount m
       = Z.of_nat (length (filter isRecordFlushed (sinceReset ops))).
Proof.
  intros ops now. cbv zeta.
  destruct (run_counts_since_reset ops (new now)) as (Hr & Hf).
  rewrite Hr, Hf. simpl. destruct (existsb isReset ops); split; lia.
Qed.

Lemma length_pushBounded :
  forall max l x,
    (0 < max)%nat -> (length l <= max)%nat ->
    (length (pushBounded max l x) <= max)%nat.
Proof.
  intros max l x Hmax Hl. unfold pushBounded.
  assert (Hp : length (l ++ [x]) = S (length l))
    by (rewrite length_app; simpl; lia).
  destruct (Nat.ltb_spec max (length (l ++ [x]))) as [H|H]; [|exact H].
  destruct (l ++ [x]) as [|y r]; simpl in *; lia.
Qed.

Lemma windows_step :
  forall c o,
    (length (eventProcessingTimes c) <= MAX_PROCESSING_SAMPLES)%nat ->
    (length (frameTimestamps c) <= MAX_FRAME_SAMPLES)%nat ->
    (length (eventProcessingTimes (step c o)) <= MAX_PROCESSING_SAMPLES)%nat
    /\ (length (frameTimestamps (step c o)) <= MAX_FRAME_SAMPLES)%nat.
Proof.
  intros c o Hp Hf.
  destruct o; cbn [step recordRawEvent recordFlushedEvent
                   recordProcessingTime updateFPS updatePollingRate reset
                   eventProcessingTimes frameTimestamps];
    try (split; assumption).
  - split; [|assumption]. apply length_pushBounded; [|assumption].
    unfold MAX_PROCESSING_SAMPLES. lia.
  - split; [assumption|]. apply length_pushBounded; [|assumption].
    unfold MAX_FRAME_SAMPLES. lia.
  - simpl. split; lia.
Qed.

(** X9.  The two rolling windows are bounded: after any sequence of
    operations the collector holds at most 100 processing times and at
    most 60 frame timestamps. *)
Theorem rolling_windows_bounded :
  forall ops now,
    let c := run ops (new now) in
    (length (eventProcessingTimes c) <= 100)%nat
    /\ (length (frameTimestamps c) <= 60)%nat.
Proof.
  intros ops now.
  assert (H : forall c,
    (length (eventProcessingTimes c) <= MAX_PROCESSING_SAMPLES)%nat ->
    (length (frameTimestamps c) <= MAX_FRAME_SAMPLES)%nat ->
    (length (eventProcessingTimes (run ops c)) <= MAX_PROCESSING_SAMPLES)%nat
    /\ (length (frameTimestamps (run ops c)) <= MAX_FRAME_SAMPLES)%nat).
  { induction ops as [|o ops IH]; intros c Hp Hf; [simpl; auto|].
    change (run (o :: ops) c) with (run ops (step c o)).
    destruct (windows_step c o Hp Hf). apply IH; assumption. }
  apply H; simpl; lia.
Qed.

Lemma lastn_all :
  forall (A : Type) n (l : list A), (length l <= n)%nat -> lastn n l = l.
Proof.
  intros A n l H. unfold lastn.
  replace (length l - n)%nat with 0%nat by lia. reflexivity.
Qed.

Lemma tl_skipn :
  forall (A : Type) k (l : list A), tl (skipn k l) = skipn (S k) l.
Proof.
  intros A k. induction k as [|k IH]; intros [|a l]; try reflexivity.
  change (skipn (S k) (a :: l)) with (skipn k l).
  change (skipn (S (S k)) (a :: l)) with (skipn (S k) l). apply IH.
Qed.

(** Pushing onto the last [n] elements and shifting when they are more
    than [n] gives the last [n] elements of the longer list. *)
Lemma pushBounded_lastn :
  forall n (l : list number) x,
    (0 < n)%nat -> pushBounded n (lastn n l) x = lastn n (l ++ [x]).
Proof.
  intros n l x Hn. unfold pushBounded, lastn.
  rewrite !length_app, length_skipn. simpl length.
  destruct (Nat.le_gt_cases (length l) n) as [Hle|Hgt].
  - replace (length l - n)%nat with 0%nat by lia. simpl skipn.
    destruct (Nat.ltb_spec n (length l - 0 + 1)) as [H|H].
    + replace (length l + 1 - n)%nat with 1%nat by lia.
      destruct l; reflexivity.
    + replace (length l + 1 - n)%nat with 0%nat by lia. reflexivity.
  - destruct (Nat.ltb_spec n (length l - (length l - n) + 1)) as [H|H];
      [|lia].
    replace (length l + 1 - n)%nat with (S (length l - n)) by lia.
    rewrite (skipn_app (S (length l - n))).
    replace (S (length l - n) - length l)%nat with 0%nat by lia.
    simpl (skipn 0 [x]).
    rewrite <- tl_skipn.
    destruct (skipn (length l - n) l) as [|y r] eqn:Hs; [|reflexivity].
    apply (f_equal (@length number)) in Hs. rewrite length_skipn in Hs.
    simpl in Hs. lia.
Qed.

Lemma recordProcessingTimes_window :
  forall times c seen,
    eventProcessingTimes c = lastn MAX_PROCESSING_SAMPLES seen ->
    averageProcessingTime (metrics c) = average (eventProcessingTimes c) ->
    let c' := recordProcessingTimes times c in
    eventProcessingTimes c' = lastn MAX_PROCESSING_SAMPLES (seen ++ times)
    /\ averageProcessingTime (metrics c') = average (eventProcessingTimes c').
Proof.
  induction times as [|t times IH]; intros c seen Hw Ha.
  - simpl. rewrite app_nil_r. auto.
  - change (recordProcessingTimes (t :: times) c)
      with (recordProcessingTimes times (recordProcessingTime t c)).
    replace (seen ++ t :: times) with ((seen ++ [t]) ++ times)
      by (rewrite <- app_assoc; reflexivity).
    apply IH.
    + unfold recordProcessingTime. cbn [eventProcessingTimes].
      rewrite Hw. apply pushBounded_lastn. unfold MAX_PROCESSING_SAMPLES. lia.
    + reflexivity.
Qed.

Lemma length_lastn :
  forall (A : Type) n (l : list A),
    length (lastn n l) = Nat.min n (length l).
Proof. intros A n l. unfold lastn. rewrite length_skipn. lia. Qed.

(** X10.  The processing-time window keeps the most recent 100 samples, in
    order, and [averageProcessingTime] is the mean of exactly those: their
    sum, added up from the oldest starting at 0, divided by their number,
    which is the number of samples recorded but at most 100.  It is 0 when
    no sample has been recorded.  Samples older than the last 100 no
    longer count. *)
Theorem processing_window_keeps_last_100 :
  forall times now,
    let c := recordProcessingTimes times (new now) in
    let window := lastn 100 times in
    eventProcessingTimes c = window
    /\ (times = [] -> averageProcessingTime (metrics c) = zero)
    /\ (times <> [] ->
        averageProcessingTime (metrics c)
        = div (fold_left add window zero)
              (ofZ (Z.of_nat (Nat.min 100 (length times))))).
Proof.
  intros times now c window.
  destruct (recordProcessingTimes_window times (new now) [] eq_refl eq_refl)
    as (Hw & Ha).
  fold c in Hw, Ha. simpl app in Hw.
  change (lastn MAX_PROCESSING_SAMPLES times) with window in Hw.
  split; [exact Hw|]. split.
  - intros ->. reflexivity.
  - intros Hne. rewrite Ha, Hw.
    pose proof (length_lastn number 100 times) as Hlen.
    change (lastn 100 times) with window in Hlen.
    rewrite <- Hlen. unfold average. clearbody window.
    destruct window as [|t rest]; [|reflexivity].
    destruct times; [congruence|]. simpl in Hlen. lia.
Qed.

(** The test "should track processing times" (1.5 and 2.5 average to 2),
    and a first sample of 1000 ms that 100 samples of 1 ms push out of the
    window: the average is 1, the 1000 no longer counts. *)
Lemma processing_window_keeps_last_100_witness :
  averageProcessingTime
    (metrics (recordProcessingTimes [dyadic 3 (-1); dyadic 5 (-1)] (new zero)))
  = ofZ 2
  /\ eventProcessingTimes
       (recordProcessingTimes (ofZ 1000 :: repeat (ofZ 1) 100) (new zero))
     = repeat (ofZ 1) 100
  /\ averageProcessingTime
       (metrics (recordProcessingTimes (ofZ 1000 :: repeat (ofZ 1) 100)
                                       (new zero)))
     = ofZ 1.
Proof.
  destruct (processing_window_keeps_last_100
              [dyadic 3 (-1); dyadic 5 (-1)] zero) as (_ & _ & Ha).
  destruct (processing_window_keeps_last_100
              (ofZ 1000 :: repeat (ofZ 1) 100) zero) as (Hw & _ & Hb).
  split; [rewrite Ha by discriminate; vm_compute; reflexivity|].
  split; [rewrite Hw; vm_compute; reflexivity|].
  rewrite Hb by discriminate. vm_compute. reflexivity.
Defined.

Lemma small_counts_positive :
  forallb (fun k => positiveFinite (ofZ (Z.of_nat k))) (seq 1 59) = true.
Proof. vm_compute. reflexivity. Qed.

Lemma small_count_positive :
  forall k, (1 <= k <= 59)%nat -> positiveFinite (ofZ (Z.of_nat k)) = true.
Proof.
  intros k Hk. pose proof small_counts_positive as H.
  rewrite forallb_forall in H. apply H, in_seq. lia.
Qed.

(** X11.  When [updateFPS] reads the very timestamp that is the oldest of
    the window (two frames within one tick of the clock), the elapsed
    time is 0 and the division makes [currentFPS] Infinity. *)
Theorem zero_duration_gives_infinite_fps :
  forall c t rest,
    frameTimestamps c = t :: rest ->
    (length rest < 59)%nat ->
    isFinite t = true ->
    currentFPS (metrics (updateFPS t c)) = Infinity.
Proof.
  intros c t rest Hf Hlen Ht.
  unfold updateFPS. cbn [metrics currentFPS]. rewrite Hf.
  unfold pushBounded.
  assert (Hl : length ((t :: rest) ++ [t]) = S (S (length rest)))
    by (rewrite length_app; simpl; lia).
  rewrite Hl.
  destruct (Nat.ltb_spec MAX_FRAME_SAMPLES (S (S (length rest)))) as [H|H];
    [unfold MAX_FRAME_SAMPLES in H; lia|].
  rewrite Hl. cbn [Nat.leb hd app].
  rewrite (sub_diag t Ht).
  replace (Z.of_nat (S (S (length rest))) - 1)
    with (Z.of_nat (S (length rest))) by lia.
  pose proof (small_count_positive (S (length rest))) as Hpos.
  destruct (ofZ (Z.of_nat (S (length rest)))) as [s|s| |[] m e];
    try (discriminate Hpos; lia).
  reflexivity.
Qed.

Lemma zero_duration_gives_infinite_fps_witness :
  currentFPS (metrics (updateFPS (ofZ 16) (updateFPS (ofZ 16) (new zero))))
  = Infinity.
Proof.
  apply (zero_duration_gives_infinite_fps
           (updateFPS (ofZ 16) (new zero)) (ofZ 16) []);
    [reflexivity | simpl; lia | reflexivity].
Defined.

End MetricsCollectorMore.

(* ================================================================== *)
(** * Further properties of the YieldScheduler *)

Section YieldSchedulerMore.

Import YieldScheduler.

(** X12.  On every host the callback runs only after control has been
    yielded to the host at least once, and at most twice: the native
    primitive is called at most once, the timer is set at most once, and
    the timer after the native call only when that call failed. *)
Theorem callback_runs_after_a_yield :
  forall h priority,
    exists yields,
      fst (processWithYield h priority) = yields ++ [Callback]
      /\ forallb isYield yields = true
      /\ (1 <= length yields <= 2)%nat
      /\ (length (filter isNativeCall yields) <= 1)%nat
      /\ (length (filter isTimerYield yields) <= 1)%nat
      /\ (length yields = 2%nat -> nativeFails h = true).
Proof.
  intros [[| |[| |[| |]]]|] priority;
    first
      [ solve [exists [SetTimeout 0]; repeat split; simpl; lia || discriminate]
      | solve [exists [NativeYield []]; repeat split; simpl; lia || discriminate]
      | solve [exists [NativeYield []; SetTimeout 0]; repeat split; simpl; lia] ].
Qed.

Lemma callback_runs_after_a_yield_witness :
  exists yields,
    fst (processWithYield (Some (scheduler_object (yield_function Rejects)))
                          user_visible)
    = yields ++ [Callback]
    /\ forallb isYield yields = true
    /\ (1 <= length yields <= 2)%nat
    /\ (length (filter isNativeCall yields) <= 1)%nat
    /\ (length (filter isTimerYield yields) <= 1)%nat
    /\ (length yields = 2%nat ->
        nativeFails (Some (scheduler_object (yield_function Rejects))) = true).
Proof.
  apply (callback_runs_after_a_yield
           (Some (scheduler_object (yield_function Rejects))) user_visible).
Defined.

End YieldSchedulerMore.

(* ================================================================== *)
(** * Properties of the EventInterceptor *)

Section EventInterceptorFacts.

Import EventInterceptor.

Lemma sameRegistration_spec :
  forall a b, sameRegistration a b = true <-> a = b.
Proof.
  intros [t1 n1] [t2 n2]. unfold sameRegistration. simpl.
  rewrite andb_true_iff, String.eqb_eq, Nat.eqb_eq.
  split; [intros (-> & ->); reflexivity | intros H; inversion H; auto].
Qed.

(** Being an entry of the map, as [detach] tests it. *)
Lemma inMap_spec :
  forall (x : Registration) m,
    existsb (fun e => sameRegistration e x) m = true <-> In x m.
Proof.
  intros x m. rewrite existsb_exists. split.
  - intros (e & He & Hs). apply sameRegistration_spec in Hs. congruence.
  - intros H. exists x. split; [exact H | apply sameRegistration_spec; auto].
Qed.

Lemma hasKey_spec :
  forall k (m : list (string * Listener)),
    existsb (fun e => String.eqb (fst e) k) m = true
    <-> exists v, In (k, v) m.
Proof.
  intros k m. rewrite existsb_exists. split.
  - intros ([k' v] & He & Hk). simpl in Hk. apply String.eqb_eq in Hk.
    subst. exists v. exact He.
  - intros (v & Hv). exists (k, v). split; [exact Hv | apply String.eqb_refl].
Qed.

(** [Map.set] leaves exactly one value under the key and keeps every
    other entry. *)
Lemma mapSet_spec :
  forall k v m k' v',
    In (k', v') (mapSet k v m)
    <-> (k' = k /\ v' = v) \/ (k' <> k /\ In (k', v') m).
Proof.
  intros k v m k' v'. unfold mapSet.
  destruct (existsb (fun e => String.eqb (fst e) k) m) eqn:Hk.
  - apply hasKey_spec in Hk. destruct Hk as (v0 & Hv0).
    rewrite in_map_iff. split.
    + intros ([k1 v1] & Hf & Hin). simpl in Hf.
      destruct (String.eqb_spec k1 k) as [->|Hne].
      * inversion Hf. auto.
      * inversion Hf. subst. auto.
    + intros [(-> & ->)|(Hne & Hin)].
      * exists (k, v0). simpl. rewrite String.eqb_refl. auto.
      * exists (k', v'). simpl.
        destruct (String.eqb_spec k' k); [contradiction|auto].
  - rewrite in_app_iff. simpl. split.
    + intros [Hin|[H|[]]].
      * right. split; [|exact Hin]. intros ->.
        assert (Hex : existsb (fun e => String.eqb (fst e) k) m = true)
          by (apply hasKey_spec; exists v'; exact Hin).
        congruence.
      * inversion H. auto.
    + intros [(-> & ->)|(_ & Hin)]; auto.
Qed.

Lemma registrations_ids :
  forall types n r,
    In r (registrations types n) ->
    (n <= snd r < n + length types)%nat.
Proof.
  induction types as [|t rest IH]; intros n r Hin; [contradiction|].
  simpl in Hin. destruct Hin as [<-|Hin]; [simpl; lia|].
  apply IH in Hin. simpl. lia.
Qed.

Lemma below_not_registered :
  forall n l t, below n l -> existsb (sameRegistration (t, n)) l = false.
Proof.
  intros n l t Hb. apply not_true_is_false. intros H.
  apply existsb_exists in H. destruct H as (x & Hx & Hs).
  apply sameRegistration_spec in Hs. subst x.
  apply Hb in Hx. simpl in Hx. lia.
Qed.

(** What [attach] leaves on the window, in the map and in the counter. *)
Lemma attach_spec :
  forall types w,
    below (nextListener w) (windowListeners w) ->
    windowListeners (attach types w)
    = windowListeners w ++ registrations types (nextListener w)
    /\ activeListeners (attach types w)
       = setAll (registrations types (nextListener w)) (activeListeners w)
    /\ nextListener (attach types w) = (nextListener w + length types)%nat.
Proof.
  induction types as [|t rest IH]; intros w Hb.
  - simpl. rewrite app_nil_r. auto.
  - change (attach (t :: rest) w) with (attach rest (attachOne w t)).
    assert (Hw : windowListeners (attachOne w t)
                 = windowListeners w ++ [(t, nextListener w)]).
    { unfold attachOne, addEventListener. simpl.
      rewrite (below_not_registered _ _ t Hb). reflexivity. }
    destruct (IH (attachOne w t)) as (H1 & H2 & H3).
    { rewrite Hw. intros r Hr. apply in_app_iff in Hr. simpl.
      destruct Hr as [Hr|[<-|[]]]; [apply Hb in Hr; lia | simpl; lia]. }
    rewrite H1, H2, H3, Hw. simpl. rewrite <- app_assoc.
    repeat split; auto; lia.
Qed.

Lemma filter_filter :
  forall (A : Type) (p q : A -> bool) l,
    filter p (filter q l) = filter (fun x => q x && p x) l.
Proof.
  intros A p q. induction l as [|a l IH]; [reflexivity|].
  simpl. destruct (q a); simpl; [destruct (p a)|]; rewrite IH; reflexivity.
Qed.

(** [detach] removes from the window exactly the entries of the map. *)
Lemma detach_window :
  forall m (l : list Registration),
    fold_left (fun l' entry => removeEventListener entry l') m l
    = filter (fun x => negb (existsb (fun e => sameRegistration e x) m)) l.
Proof.
  induction m as [|e m IH]; intros l.
  - simpl. symmetry. apply forallb_filter_id.
    apply forallb_forall. reflexivity.
  - simpl. rewrite IH. unfold removeEventListener. rewrite filter_filter.
    apply filter_ext. intros x. rewrite negb_orb. reflexivity.
Qed.

(** An entry made before the attach survives it exactly when its key is
    not among the attached types. *)
Lemma setAll_old_entry :
  forall types n m k v,
    (v < n)%nat ->
    (In (k, v) (setAll (registrations types n) m)
     <-> In (k, v) m /\ ~ In k types).
Proof.
  induction types as [|t rest IH]; intros n m k v Hv.
  - simpl. tauto.
  - change (setAll (registrations (t :: rest) n) m)
      with (setAll (registrations rest (S n)) (mapSet t n m)).
    rewrite IH by lia. rewrite mapSet_spec. simpl. split.
    + intros ([(_ & ->)|(Hne & Hin)] & Hrest); [lia|].
      split; [exact Hin|]. intros [->|H]; [congruence|contradiction].
    + intros (Hin & Hnot). split.
      * right. split; [|exact Hin]. intros ->. apply Hnot. auto.
      * intros H. apply Hnot. auto.
Qed.

(** Whatever is in the map after an attach was there before or has been
    registered by it. *)
Lemma setAll_origin :
  forall types n m x,
    In x (setAll (registrations types n) m) ->
    In x m \/ In x (registrations types n).
Proof.
  induction types as [|t rest IH]; intros n m [k v] Hin; [auto|].
  change (setAll (registrations (t :: rest) n) m)
    with (setAll (registrations rest (S n)) (mapSet t n m)) in Hin.
  apply IH in Hin. destruct Hin as [Hin|Hin].
  - apply mapSet_spec in Hin. destruct Hin as [(-> & ->)|(_ & Hin)].
    + right. left. reflexivity.
    + left. exact Hin.
  - right. right. exact Hin.
Qed.

Lemma In_existsb_eqb :
  forall t (l : list string), existsb (String.eqb t) l = true <-> In t l.
Proof.
  intros t l. rewrite existsb_exists. split.
  - intros (x & Hx & He). apply String.eqb_eq in He. congruence.
  - intros H. exists t. split; [exact H | apply String.eqb_refl].
Qed.

(** Of the entries an attach registers, [detach] misses those of a type
    that occurs again later in the list. *)
Lemma detach_misses_shadowed :
  forall types n m,
    below n m ->
    filter (fun x => negb (existsb (fun e => sameRegistration e x)
                                   (setAll (registrations types n) m)))
           (registrations types n)
    = shadowed types n.
Proof.
  induction types as [|t rest IH]; intros n m Hb; [reflexivity|].
  change (setAll (registrations (t :: rest) n) m)
    with (setAll (registrations rest (S n)) (mapSet t n m)).
  change (registrations (t :: rest) n)
    with ((t, n) :: registrations rest (S n)).
  assert (Hb' : below (S n) (mapSet t n m)).
  { intros [k v] Hin. apply mapSet_spec in Hin. simpl.
    destruct Hin as [(_ & ->)|(_ & Hin)]; [lia|]. apply Hb in Hin.
    simpl in Hin. lia. }
  simpl filter. rewrite (IH (S n) (mapSet t n m) Hb').
  assert (Hhead :
    existsb (fun e => sameRegistration e (t, n))
            (setAll (registrations rest (S n)) (mapSet t n m))
    = negb (existsb (String.eqb t) rest)).
  { apply eq_true_iff_eq. rewrite inMap_spec, negb_true_iff.
    rewrite (setAll_old_entry rest (S n) (mapSet t n m) t n) by lia.
    rewrite mapSet_spec, <- not_true_iff_false, In_existsb_eqb. tauto. }
  rewrite Hhead, negb_involutive. simpl.
  destruct (existsb (String.eqb t) rest); reflexivity.
Qed.

(** The window after constructing an interceptor and detaching it. *)
Lemma detach_new_window :
  forall types window fresh,
    below fresh window ->
    windowListeners (detach (new types window fresh))
    = window ++ shadowed types fresh.
Proof.
  intros types window fresh Hb. unfold new, detach. cbn [windowListeners].
  destruct (attach_spec types (mkWorld [] window fresh) Hb) as (H1 & H2 & _).
  cbn [windowListeners activeListeners nextListener] in H1, H2.
  rewrite H1, H2, detach_window, filter_app.
  f_equal; [|apply (detach_misses_shadowed types fresh []); intros r []].
  apply forallb_filter_id. apply forallb_forall.
  intros x Hx. apply negb_true_iff, not_true_iff_false. intros Hin.
  apply inMap_spec, setAll_origin in Hin. destruct Hin as [[]|Hin].
  apply registrations_ids in Hin. apply Hb in Hx. lia.
Qed.

End EventInterceptorFacts.

Section EventInterceptorClaims.

Import EventInterceptor.

Lemma shadowed_NoDup :
  forall types n, NoDup types -> shadowed types n = [].
Proof.
  induction types as [|t rest IH]; intros n Hnd; [reflexivity|].
  inversion Hnd as [|? ? Hnot Hrest]. subst. simpl.
  rewrite (IH (S n) Hrest), app_nil_r.
  destruct (existsb (String.eqb t) rest) eqn:He; [|reflexivity].
  apply In_existsb_eqb in He. contradiction.
Qed.

Lemma shadowed_duplicate :
  forall l1 t l2 n,
    In t l2 -> In (t, (n + length l1)%nat) (shadowed (l1 ++ t :: l2) n).
Proof.
  induction l1 as [|a l1 IH]; intros t l2 n Hin.
  - simpl. apply In_existsb_eqb in Hin. rewrite Hin.
    rewrite Nat.add_0_r. left. reflexivity.
  - simpl. apply in_or_app. right.
    replace (n + S (length l1))%nat with (S n + length l1)%nat by lia.
    apply IH, Hin.
Qed.

(** X13.  Attach and detach undo each other when the event types are all
    different: after [detach()] the window has exactly the listeners it
    had before the interceptor was constructed, the map is empty, and a
    second [detach()] changes nothing. *)
Theorem detach_restores_window :
  forall types window fresh,
    NoDup types -> below fresh window ->
    let w := detach (new types window fresh) in
    windowListeners w = window
    /\ activeListeners w = []
    /\ detach w = w.
Proof.
  intros types window fresh Hnd Hb w.
  assert (Hw : windowListeners w = window).
  { unfold w. rewrite (detach_new_window types window fresh Hb).
    rewrite (shadowed_NoDup types fresh Hnd). apply app_nil_r. }
  split; [exact Hw|]. split; reflexivity.
Qed.

Lemma detach_restores_window_witness :
  let w := detach (new ["pointermove"; "wheel"]%string
                       [("click"%string, 0%nat)] 1%nat) in
  windowListeners w = [("click"%string, 0%nat)]
  /\ activeListeners w = []
  /\ detach w = w.
Proof.
  apply (detach_restores_window ["pointermove"; "wheel"]%string
                                [("click"%string, 0%nat)] 1%nat).
  - repeat constructor; simpl; intuition discriminate.
  - intros r [<-|[]]. simpl. lia.
Defined.

(** X14.  When an event type occurs twice in the list, the listener
    created for its earlier occurrence is overwritten in the map and
    [detach()] cannot find it: it stays registered on the window, and the
    interceptor, its map empty, has no way left to remove it. *)
Theorem duplicate_type_leaks_listener :
  forall l1 t l2 window fresh,
    below fresh window -> In t l2 ->
    let w := detach (new (l1 ++ t :: l2) window fresh) in
    let leaked := (t, (fresh + length l1)%nat) in
    In leaked (windowListeners w)
    /\ ~ In leaked window
    /\ activeListeners w = []
    /\ In leaked (windowListeners (detach w)).
Proof.
  intros l1 t l2 window fresh Hb Hin w leaked.
  assert (Hw : In leaked (windowListeners w)).
  { unfold w. rewrite (detach_new_window _ window fresh Hb).
    apply in_or_app. right. apply shadowed_duplicate, Hin. }
  repeat split; [exact Hw | | exact Hw].
  intros H. apply Hb in H. unfold leaked in H. simpl in H. lia.
Qed.

Lemma duplicate_type_leaks_listener_witness :
  let w := detach (new ([] ++ "wheel"%string :: ["wheel"%string])
                       [] 0%nat) in
  In ("wheel"%string, (0 + 0)%nat) (windowListeners w)
  /\ ~ In ("wheel"%string, (0 + 0)%nat) []
  /\ activeListeners w = []
  /\ In ("wheel"%string, (0 + 0)%nat) (windowListeners (detach w)).
Proof.
  apply (duplicate_type_leaks_listener [] "wheel"%string ["wheel"%string]
                                       [] 0%nat).
  - intros r [].
  - left. reflexivity.
Defined.

(** Attaching types that are all different and not yet in the map appends
    one entry for each. *)
Lemma setAll_NoDup :
  forall types n m,
    NoDup types ->
    (forall t v, In t types -> ~ In (t, v) m) ->
    setAll (registrations types n) m = m ++ registrations types n.
Proof.
  induction types as [|t rest IH]; intros n m Hnd Hm.
  - simpl. rewrite app_nil_r. reflexivity.
  - inversion Hnd as [|? ? Hnot Hrest]. subst.
    change (setAll (registrations (t :: rest) n) m)
      with (setAll (registrations rest (S n)) (mapSet t n m)).
    assert (Hset : mapSet t n m = m ++ [(t, n)]).
    { unfold mapSet.
      destruct (existsb (fun e => String.eqb (fst e) t) m) eqn:Hk;
        [|reflexivity].
      apply hasKey_spec in Hk. destruct Hk as (v & Hv).
      exfalso. apply (Hm t v); [left; reflexivity | exact Hv]. }
    rewrite Hset, (IH (S n) (m ++ [(t, n)]) Hrest).
    + rewrite <- app_assoc. reflexivity.
    + intros t' v Hin' Hin. apply in_app_iff in Hin.
      destruct Hin as [Hin|[Heq|[]]].
      * apply (Hm t' v); [right; exact Hin' | exact Hin].
      * inversion Heq. subst. contradiction.
Qed.

(** X15.  [updateEventTypes] replaces the listeners: when old and new
    types are each all different, afterwards the window has what it had
    before the interceptor, followed by one new listener per new type in
    the order given, and the map holds exactly those. *)
Theorem updateEventTypes_replaces_listeners :
  forall types types' window fresh,
    NoDup types -> NoDup types' -> below fresh window ->
    let w := updateEventTypes types' (new types window fresh) in
    let added := registrations types' (fresh + length types)%nat in
    windowListeners w = window ++ added
    /\ activeListeners w = added.
Proof.
  intros types types' window fresh Hnd Hnd' Hb w added.
  destruct (attach_spec types (mkWorld [] window fresh) Hb) as (_ & _ & Hn).
  cbn [nextListener] in Hn.
  assert (Hwin : windowListeners (detach (new types window fresh)) = window).
  { rewrite (detach_new_window types window fresh Hb).
    rewrite (shadowed_NoDup types fresh Hnd). apply app_nil_r. }
  assert (Hnext : nextListener (detach (new types window fresh))
                  = (fresh + length types)%nat) by exact Hn.
  destruct (attach_spec types' (detach (new types window fresh)))
    as (H1 & H2 & _).
  { rewrite Hwin, Hnext. intros r Hr. apply Hb in Hr. lia. }
  unfold w, updateEventTypes, added.
  rewrite H1, H2, Hwin, Hnext. split; [reflexivity|].
  cbn [detach activeListeners].
  rewrite (setAll_NoDup types' _ [] Hnd') by (intros t v _ []).
  reflexivity.
Qed.

Lemma updateEventTypes_replaces_listeners_witness :
  let w := updateEventTypes ["scroll"]%string
             (new ["pointermove"; "wheel"]%string [] 0%nat) in
  windowListeners w
  = [] ++ registrations ["scroll"]%string
                        (0 + length ["pointermove"; "wheel"]%string)%nat
  /\ activeListeners w
     = registrations ["scroll"]%string
                     (0 + length ["pointermove"; "wheel"]%string)%nat.
Proof.
  apply (updateEventTypes_replaces_listeners
           ["pointermove"; "wheel"]%string ["scroll"]%string [] 0%nat).
  - repeat constructor; simpl; intuition discriminate.
  - repeat constructor; simpl; intuition.
  - intros r [].
Defined.

End EventInterceptorClaims.

(* ================================================================== *)
(** * Properties of the wiring in InputSanitizer *)

Section InputSanitizerClaims.

Import JS InputSanitizer.

(** What [detectPollingRate] returns is what the detector stands for
    afterwards. *)
Lemma detect_returns_classification :
  forall now d,
    fst (PollingRateDetector.detectPollingRate now d)
    = classification (snd (PollingRateDetector.detectPollingRate now d)).
Proof.
  intros now d. unfold PollingRateDetector.detectPollingRate, classification.
  destruct (PollingRateDetector.cachedPollingRate d) as [c|] eqn:Hc.
  - simpl. rewrite Hc. reflexivity.
  - repeat match goal with
           | |- context [if ?b then _ else _] => destruct b
           end; reflexivity.
Qed.

Lemma length_remove_nth :
  forall (A : Type) i (l : list A) a,
    nth_error l i = Some a ->
    S (length (firstn i l ++ skipn (S i) l)) = length l.
Proof.
  intros A i l a H.
  assert (Hi : (i < length l)%nat) by (apply nth_error_Some; congruence).
  rewrite length_app, length_firstn, length_skipn. lia.
Qed.

Lemma buffer_delivered_same :
  forall e w,
    SamplingBuffer.delivered (SamplingBuffer.buffer e w)
    = SamplingBuffer.delivered w.
Proof.
  intros e [[le acc rid sh act] nx q del]. unfold SamplingBuffer.buffer.
  simpl. destruct act; simpl; [destruct rid|]; reflexivity.
Qed.

(** A refresh never takes a delivery back, and adds at most one. *)
Lemma animationFrame_delivered :
  forall w, SamplingBuffer.Inv w ->
    (length (SamplingBuffer.delivered w)
     <= length (SamplingBuffer.delivered (SamplingBuffer.animationFrame w))
     <= S (length (SamplingBuffer.delivered w)))%nat.
Proof.
  intros w HI.
  destruct (SamplingBuffer.rafId (SamplingBuffer.buf w)) as [id|] eqn:Hid.
  - rewrite (animationFrame_scheduled w id HI Hid).
    unfold SamplingBuffer.flush. simpl.
    destruct (SamplingBuffer.latestEvent (SamplingBuffer.buf w)); simpl;
      [rewrite length_app; simpl|]; lia.
  - rewrite (animationFrame_idle w HI Hid). lia.
Qed.

Lemma Wired_mount : forall accumulateDeltas now, Wired (mount accumulateDeltas now).
Proof.
  intros a now. unfold Wired, mount. simpl.
  repeat split; try lia. apply Consistent_new.
Qed.

Lemma Wired_step :
  forall p o, isRerun o = false -> Wired p -> Wired (step p o).
Proof.
  intros [d c w fl] o Hno (HI & Hfl & Hraw & Hrate & Hhz & HC).
  cbn [detector collector world inFlight] in *.
  destruct o as [e isPointer now|now|i now1 now2| |a now];
    [| | | |discriminate Hno].
  - (* a listener call *)
    pose proof (step_counts w (SamplingBuffer.OpBuffer e) HI) as (_ & Hc).
    cbn [SamplingBuffer.step SamplingBuffer.isBufferCall] in Hc.
    pose proof (buffer_delivered_same e w) as Hd. rewrite Hd in Hc.
    unfold step, onEvent, EventInterceptor.listener, shouldBuffer, handleEvent.
    cbn [detector collector world inFlight].
    destruct isPointer.
    + pose proof (detect_returns_classification now d) as Hcls.
      pose proof (Consistent_step d (PollingRateDetector.OpDetect now) HC)
        as HC'.
      cbn [PollingRateDetector.step] in HC'.
      destruct (PollingRateDetector.detectPollingRate now d) as [rate d'].
      cbn [fst snd] in *. unfold Wired.
      cbn [detector collector world inFlight MetricsCollector.metrics
           MetricsCollector.updatePollingRate MetricsCollector.recordRawEvent
           MetricsCollector.updateReductionPercentage
           MetricsCollector.rawEventCount MetricsCollector.flushedEventCount
           MetricsCollector.pollingRate MetricsCollector.detectedHz].
      rewrite Hd. repeat split; auto using Inv_buffer; lia.
    + cbn [snd]. unfold Wired.
      cbn [detector collector world inFlight MetricsCollector.metrics
           MetricsCollector.recordRawEvent
           MetricsCollector.updateReductionPercentage
           MetricsCollector.rawEventCount MetricsCollector.flushedEventCount
           MetricsCollector.pollingRate MetricsCollector.detectedHz].
      rewrite Hd. repeat split; auto using Inv_buffer; lia.
  - (* a refresh *)
    pose proof (step_counts w SamplingBuffer.OpFrame HI) as (_ & Hc).
    cbn [SamplingBuffer.step SamplingBuffer.isBufferCall] in Hc.
    pose proof (animationFrame_delivered w HI) as Hd.
    unfold step, onFrame, Wired. cbn [detector collector world inFlight].
    rewrite length_app, repeat_length.
    repeat split; auto using Inv_animationFrame; lia.
  - (* a resumed handleFlush *)
    unfold step, onResume. cbn [detector collector world inFlight].
    destruct (nth_error fl i) as [startTime|] eqn:Hn.
    + pose proof (length_remove_nth _ i fl startTime Hn) as Hlen.
      unfold Wired.
      cbn [detector collector world inFlight MetricsCollector.metrics
           MetricsCollector.recordProcessingTime MetricsCollector.updateFPS
           MetricsCollector.recordFlushedEvent
           MetricsCollector.updateReductionPercentage
           MetricsCollector.rawEventCount MetricsCollector.flushedEventCount
           MetricsCollector.pollingRate MetricsCollector.detectedHz].
      repeat split; auto; lia.
    + unfold Wired. cbn [detector collector world inFlight].
      repeat split; auto.
  - (* the cleanup *)
    pose proof (step_counts w SamplingBuffer.OpDestroy HI) as (_ & Hc).
    cbn [SamplingBuffer.step SamplingBuffer.isBufferCall] in Hc.
    unfold step, unmount, Wired. cbn [detector collector world inFlight].
    change (SamplingBuffer.delivered (SamplingBuffer.destroy w))
      with (SamplingBuffer.delivered w) in *.
    split; [apply Inv_destroy, HI|]. repeat split; auto; lia.
Qed.

Lemma Wired_run :
  forall ops p,
    existsb isRerun ops = false -> Wired p -> Wired (run ops p).
Proof.
  induction ops as [|o ops IH]; intros p Hno H; [exact H|].
  simpl in Hno. apply orb_false_iff in Hno. destruct Hno as (Ho & Hops).
  apply (IH (step p o) Hops), Wired_step; assumption.
Qed.

Lemma step_deliveries :
  forall p o, Wired p ->
    (length (SamplingBuffer.delivered (world (step p o)))
     <= length (SamplingBuffer.delivered (world p))
        + (if isFrame o then 1 else 0))%nat.
Proof.
  intros [d c w fl] o (HI & _). cbn [world] in *.
  destruct o as [e isPointer now|now|i now1 now2| |a now];
    [| | | |unfold step, rerun; cbn [world isFrame]; simpl; lia].
  - unfold step, onEvent, EventInterceptor.listener, shouldBuffer, handleEvent.
    cbn [detector collector world inFlight].
    destruct isPointer;
      [destruct (PollingRateDetector.detectPollingRate now d)|];
      cbn [snd world]; rewrite buffer_delivered_same; simpl; lia.
  - unfold step, onFrame. cbn [world isFrame].
    pose proof (animationFrame_delivered w HI). lia.
  - unfold step, onResume. cbn [inFlight].
    destruct (nth_error fl i); cbn [world isFrame]; lia.
  - unfold step, unmount. cbn [world isFrame]. simpl. lia.
Qed.

Lemma run_deliveries :
  forall ops p,
    existsb isRerun ops = false -> Wired p ->
    (length (SamplingBuffer.delivered (world (run ops p)))
     <= length (SamplingBuffer.delivered (world p)) + countFrames ops)%nat.
Proof.
  induction ops as [|o ops IH]; intros p Hno H.
  - unfold countFrames. simpl. lia.
  - change (run (o :: ops) p) with (run ops (step p o)).
    simpl in Hno. apply orb_false_iff in Hno. destruct Hno as (Ho & Hops).
    pose proof (IH (step p o) Hops (Wired_step p o Ho H)) as H1.
    pose proof (step_deliveries p o H) as H2.
    unfold countFrames in *. simpl. destruct (isFrame o); simpl; lia.
Qed.

(** X16.  Within one run of the effect (no dependency changes, so the
    effect does not run again) the metrics invariant holds that the
    collector alone does not enforce: whatever the interleaving of
    listener calls, refreshes, resumed [handleFlush] calls and the
    cleanup, the flushed count never exceeds the raw count; it is the
    number of [handleFlush] calls that have resumed (the deliveries of
    the buffer less those still waiting for their yield); and it never
    exceeds the number of display refreshes. *)
Theorem pipeline_flushed_never_exceeds_raw :
  forall accumulateDeltas now ops,
    existsb isRerun ops = false ->
    let p := run ops (mount accumulateDeltas now) in
    let m := MetricsCollector.metrics (collector p) in
    MetricsCollector.flushedEventCount m <= MetricsCollector.rawEventCount m
    /\ MetricsCollector.flushedEventCount m + Z.of_nat (length (inFlight p))
       = Z.of_nat (length (SamplingBuffer.delivered (world p)))
    /\ MetricsCollector.flushedEventCount m <= Z.of_nat (countFrames ops).
Proof.
  intros a now ops Hno p m.
  pose proof (Wired_run ops _ Hno (Wired_mount a now))
    as (_ & Hfl & Hraw & _).
  pose proof (run_deliveries ops _ Hno (Wired_mount a now)) as Hd.
  fold p in Hfl, Hraw, Hd. fold m in Hfl, Hraw.
  simpl (length (SamplingBuffer.delivered (world (mount a now)))) in Hd.
  repeat split; [lia | exact Hfl | lia].
Qed.

Lemma pipeline_flushed_never_exceeds_raw_witness :
  let ops := [OpEvent SamplingBuffer.wheelEvent1 false (ofZ 1);
              OpEvent SamplingBuffer.wheelEvent2 false (ofZ 2);
              OpFrame (ofZ 16);
              OpEvent SamplingBuffer.moveEvent1 true (ofZ 17);
              OpResume 0 (ofZ 18) (ofZ 18);
              OpUnmount;
              OpFrame (ofZ 32)] in
  let p := run ops (mount true zero) in
  let m := MetricsCollector.metrics (collector p) in
  MetricsCollector.flushedEventCount m <= MetricsCollector.rawEventCount m
  /\ MetricsCollector.flushedEventCount m + Z.of_nat (length (inFlight p))
     = Z.of_nat (length (SamplingBuffer.delivered (world p)))
  /\ MetricsCollector.flushedEventCount m <= Z.of_nat (countFrames ops).
Proof.
  apply (pipeline_flushed_never_exceeds_raw true zero). reflexivity.
Defined.

(** X18.  A [handleFlush] that is suspended when the effect runs again
    resumes on the new collector: it reads [metricsRef.current] only
    then.  The new collector ends up with a flushed event it never saw
    raw, 0 raw and 1 flushed, whatever the pipeline did before. *)
Theorem stale_handleFlush_records_on_new_collector :
  forall p accumulateDeltas now i now1 now2 startTime,
    nth_error (inFlight p) i = Some startTime ->
    let p' := onResume i now1 now2 (rerun accumulateDeltas now p) in
    let m := MetricsCollector.metrics (collector p') in
    MetricsCollector.rawEventCount m = 0
    /\ MetricsCollector.flushedEventCount m = 1
    /\ MetricsCollector.reductionPercentage m = zero
    /\ MetricsCollector.eventProcessingTimes (collector p')
       = [sub now2 startTime]
    /\ S (length (inFlight p')) = length (inFlight p).
Proof.
  intros p a now i now1 now2 startTime Hn p' m.
  subst m p'. unfold onResume, rerun. cbn [inFlight]. rewrite Hn.
  cbn [collector inFlight]. split; [reflexivity|].
  split; [reflexivity|]. split; [reflexivity|]. split; [reflexivity|].
  apply (length_remove_nth _ i (inFlight p) startTime Hn).
Qed.

(** One wheel event, the refresh that delivers it, a new run of the
    effect, and then the resumed [handleFlush]. *)
Lemma stale_handleFlush_records_on_new_collector_witness :
  let p := run [OpEvent SamplingBuffer.wheelEvent1 false (ofZ 1);
                OpFrame (ofZ 16)] (mount true zero) in
  let p' := onResume 0 (ofZ 18) (ofZ 19) (rerun true (ofZ 17) p) in
  let m := MetricsCollector.metrics (collector p') in
  MetricsCollector.rawEventCount m = 0
  /\ MetricsCollector.flushedEventCount m = 1
  /\ MetricsCollector.reductionPercentage m = zero
  /\ MetricsCollector.eventProcessingTimes (collector p')
     = [sub (ofZ 19) (ofZ 16)]
  /\ S (length (inFlight p')) = length (inFlight p).
Proof.
  apply (stale_handleFlush_records_on_new_collector
           (run [OpEvent SamplingBuffer.wheelEvent1 false (ofZ 1);
                 OpFrame (ofZ 16)] (mount true zero))
           true (ofZ 17) 0%nat (ofZ 18) (ofZ 19) (ofZ 16)).
  reflexivity.
Defined.

Lemma Mirrored_mount :
  forall accumulateDeltas now, Mirrored (mount accumulateDeltas now).
Proof.
  intros a now. unfold Mirrored, mount. simpl.
  repeat split. apply Consistent_new.
Qed.

Lemma Mirrored_step : forall p o, Mirrored p -> Mirrored (step p o).
Proof.
  intros [d c w fl] o (Hrate & Hhz & HC).
  cbn [detector collector world inFlight] in *.
  destruct o as [e isPointer now|now|i now1 now2| |a now].
  - unfold step, onEvent, EventInterceptor.listener, shouldBuffer, handleEvent.
    cbn [detector collector world inFlight].
    destruct isPointer.
    + pose proof (detect_returns_classification now d) as Hcls.
      pose proof (Consistent_step d (PollingRateDetector.OpDetect now) HC)
        as HC'.
      cbn [PollingRateDetector.step] in HC'.
      destruct (PollingRateDetector.detectPollingRate now d) as [rate d'].
      cbn [fst snd] in *. unfold Mirrored.
      cbn [detector collector]. repeat split; auto.
    + cbn [snd]. unfold Mirrored. cbn [detector collector].
      repeat split; auto.
  - unfold step, onFrame, Mirrored. cbn [detector collector].
    repeat split; auto.
  - unfold step, onResume. cbn [inFlight].
    destruct (nth_error fl i); unfold Mirrored; cbn [detector collector];
      repeat split; auto.
  - unfold step, unmount, Mirrored. cbn [detector collector].
    repeat split; auto.
  - unfold step, rerun, Mirrored. cbn [detector collector].
    repeat split. apply Consistent_new.
Qed.

Lemma Mirrored_run : forall ops p, Mirrored p -> Mirrored (run ops p).
Proof.
  induction ops as [|o ops IH]; intros p H; [exact H|].
  apply (IH (step p o)), Mirrored_step, H.
Qed.

Lemma sinceRerun_no_rerun :
  forall ops, existsb isRerun ops = false -> sinceRerun ops = ops.
Proof.
  intros [|o rest] H; [reflexivity|].
  simpl in H. apply orb_false_iff in H. destruct H as (Ho & Hrest).
  simpl. rewrite Hrest, Ho. reflexivity.
Qed.

(** The window of the detector holds one timestamp per pointer event, up
    to ten, and is empty after a new run of the effect. *)
Lemma step_window :
  forall p o, Mirrored p ->
    length (PollingRateDetector.eventTimestamps (detector (step p o)))
    = if isRerun o then 0%nat
      else Nat.min 10
             (length (PollingRateDetector.eventTimestamps (detector p))
              + (if isPointerCall o then 1 else 0)).
Proof.
  intros [d c w fl] o (_ & _ & HC). cbn [detector] in *.
  assert (Hle : (length (PollingRateDetector.eventTimestamps d) <= 10)%nat).
  { unfold PollingRateDetector.Consistent, PollingRateDetector.SAMPLE_SIZE
      in HC.
    destruct (PollingRateDetector.cachedPollingRate d);
      destruct HC as (Hlen & _); lia. }
  destruct o as [e isPointer now|now|i now1 now2| |a now].
  - unfold step, onEvent, EventInterceptor.listener, shouldBuffer, handleEvent.
    cbn [detector collector world inFlight isPointerCall isRerun].
    destruct isPointer; [|cbn [snd detector]; lia].
    unfold PollingRateDetector.Consistent, PollingRateDetector.SAMPLE_SIZE
      in HC.
    destruct (PollingRateDetector.cachedPollingRate d) as [r|] eqn:Hc.
    + unfold PollingRateDetector.detectPollingRate. rewrite Hc.
      cbn [snd detector]. lia.
    + destruct HC as (Hlen & _).
      destruct (Nat.eq_dec
                  (length (PollingRateDetector.eventTimestamps d) + 1)
                  PollingRateDetector.SAMPLE_SIZE) as [Hfull|Hshort].
      * rewrite (detect_full now d Hc Hfull). cbv zeta.
        cbn [snd detector PollingRateDetector.eventTimestamps].
        rewrite length_app. cbn [length].
        unfold PollingRateDetector.SAMPLE_SIZE in *. lia.
      * rewrite (detect_collecting now d Hc)
          by (unfold PollingRateDetector.SAMPLE_SIZE in *; lia).
        cbn [snd detector PollingRateDetector.eventTimestamps].
        rewrite length_app. cbn [length]. lia.
  - unfold step, onFrame. cbn [detector isPointerCall isRerun]. lia.
  - unfold step, onResume. cbn [inFlight].
    destruct (nth_error fl i); cbn [detector isPointerCall isRerun]; lia.
  - unfold step, unmount. cbn [detector isPointerCall isRerun]. lia.
  - reflexivity.
Qed.

Lemma run_window :
  forall ops p, Mirrored p ->
    length (PollingRateDetector.eventTimestamps (detector (run ops p)))
    = Nat.min 10
        ((if existsb isRerun ops then 0
          else length (PollingRateDetector.eventTimestamps (detector p)))
         + countPointerEvents (sinceRerun ops)).
Proof.
  induction ops as [|o ops IH]; intros p H.
  - destruct H as (_ & _ & HC).
    unfold PollingRateDetector.Consistent, PollingRateDetector.SAMPLE_SIZE
      in HC.
    unfold countPointerEvents. cbn [filter length sinceRerun existsb].
    destruct (PollingRateDetector.cachedPollingRate (detector p));
      destruct HC as (Hlen & _); simpl run; lia.
  - change (run (o :: ops) p) with (run ops (step p o)).
    rewrite (IH (step p o) (Mirrored_step p o H)), (step_window p o H).
    change (existsb isRerun (o :: ops))
      with (isRerun o || existsb isRerun ops).
    change (sinceRerun (o :: ops))
      with (if existsb isRerun ops then sinceRerun ops
            else if isRerun o then ops else o :: ops).
    destruct (existsb isRerun ops) eqn:Hops.
    + rewrite orb_true_r. reflexivity.
    + rewrite orb_false_r, (sinceRerun_no_rerun ops Hops).
      unfold countPointerEvents. cbn [filter].
      destruct (isRerun o) eqn:Ho.
      * reflexivity.
      * cbn [filter]. destruct (isPointerCall o); cbn [length]; lia.
Qed.

(** X17.  In the pipeline the metrics mirror the detector: the reported
    polling rate and Hz are always those of the detector, the rate is
    'unknown' (with 0 Hz) exactly until the tenth pointer event has been
    intercepted, and it is 'high' or 'standard' ever after.  A new run of
    the effect starts the count again, with a new detector and a new
    collector. *)
Theorem pipeline_reports_detector_state :
  forall accumulateDeltas now ops,
    let p := run ops (mount accumulateDeltas now) in
    let m := MetricsCollector.metrics (collector p) in
    MetricsCollector.pollingRate m = classification (detector p)
    /\ MetricsCollector.detectedHz m
       = PollingRateDetector.getDetectedHz (detector p)
    /\ (MetricsCollector.pollingRate m = unknown
        <-> (countPointerEvents (sinceRerun ops) < 10)%nat)
    /\ (MetricsCollector.pollingRate m = unknown ->
        MetricsCollector.detectedHz m = zero).
Proof.
  intros a now ops p m.
  pose proof (Mirrored_run ops _ (Mirrored_mount a now))
    as (Hrate & Hhz & HC).
  pose proof (run_window ops _ (Mirrored_mount a now)) as Hw.
  fold p in Hrate, Hhz, HC, Hw. fold m in Hrate, Hhz.
  simpl (length (PollingRateDetector.eventTimestamps
                   (detector (mount a now)))) in Hw.
  assert (Hw' : length (PollingRateDetector.eventTimestamps (detector p))
                = Nat.min 10 (countPointerEvents (sinceRerun ops)))
    by (destruct (existsb isRerun ops); exact Hw).
  clear Hw.
  split; [exact Hrate|]. split; [exact Hhz|].
  rewrite Hrate, Hhz. unfold classification, PollingRateDetector.getDetectedHz.
  unfold PollingRateDetector.Consistent, PollingRateDetector.SAMPLE_SIZE in HC.
  destruct (PollingRateDetector.cachedPollingRate (detector p)) as [r|].
  - destruct HC as (Hlen & Hr & _).
    assert (Hne : r <> unknown).
    { rewrite Hr. unfold PollingRateDetector.classify.
      destruct (_ <=? _)%nat; discriminate. }
    split; [split; [contradiction | lia] | contradiction].
  - destruct HC as (Hlen & Hz). split; [split; [lia | reflexivity] | auto].
Qed.

Lemma pipeline_reports_detector_state_witness :
  let ops := map (fun t => OpEvent SamplingBuffer.moveEvent1 true t)
                 PollingRateDetector.timestamps8000Hz
             ++ [OpFrame (ofZ 16); OpResume 0 (ofZ 17) (ofZ 17);
                 OpRerun true (ofZ 18);
                 OpEvent SamplingBuffer.moveEvent2 true (ofZ 19);
                 OpEvent SamplingBuffer.moveEvent2 true (ofZ 20)] in
  let p := run ops (mount true zero) in
  let m := MetricsCollector.metrics (collector p) in
  MetricsCollector.pollingRate m = classification (detector p)
  /\ MetricsCollector.detectedHz m
     = PollingRateDetector.getDetectedHz (detector p)
  /\ (MetricsCollector.pollingRate m = unknown
      <-> (countPointerEvents (sinceRerun ops) < 10)%nat)
  /\ (MetricsCollector.pollingRate m = unknown ->
      MetricsCollector.detectedHz m = zero).
Proof.
  apply (pipeline_reports_detector_state true zero).
Defined.

(** The pipeline on ten pointer moves 0.125 ms apart, one refresh and the
    resumed [handleFlush]: 10 raw events, 1 flushed, 90 % reduction,
    'high' at 8000 Hz. *)
Example pipeline_ten_pointer_moves :
  let p := run (map (fun t => OpEvent SamplingBuffer.moveEvent1 true t)
                    PollingRateDetector.timestamps8000Hz
                ++ [OpFrame (ofZ 16); OpResume 0 (ofZ 17) (ofZ 17)])
               (mount true zero) in
  let m := MetricsCollector.metrics (collector p) in
  MetricsCollector.rawEventCount m = 10
  /\ MetricsCollector.flushedEventCount m = 1
  /\ MetricsCollector.reductionPercentage m = ofZ 90
  /\ MetricsCollector.pollingRate m = high
  /\ MetricsCollector.detectedHz m = ofZ 8000
  /\ inFlight p = [].
Proof. vm_compute. repeat split. Qed.

End InputSanitizerClaims.
